(** * Story upload modal: moderation pipeline, upload records and panels

    A shallow embedding of [src/app/components/story-upload-modal.tsx].

    - [JS]: the JavaScript values the component handles (the result of
      [JSON.parse], thrown exceptions, numbers as binary64 floats) with
      the few built-ins the component calls.
    - [Moderation]: [analyzeMediaWithClaude], written in a small monad
      that records the effects it performs and may throw. What the
      browser and the endpoint answer is a parameter ([World]).
    - [Modal]: the React state of [StoryUploadModal], its event handlers
      as state transformers, and the calls made on [URL].
    - [Panel]: [AIAnalysisPanel] as a function from an upload record to
      the element tree it returns.
    - [Samples], [Properties]: concrete inputs, invariants and the
      properties that are checked.
    - [Encoding]: the data URL payload and the event listeners of
      [extractVideoFrame].
    - [Screen]: [CompactMediaPreview] and the element tree of
      [StoryUploadModal].
    - [ModalFacts], [ModerationFacts], [FloatFacts], [PanelFacts],
      [ModalMore], [ScreenFacts], [ModerationMore], [TextFacts],
      [EncodingFacts], [PanelMore]: the proofs.

    Styling, static texts other than the ones named below, the preview
    component and the reset of the file input are left out: they read
    the state and do not change it. *)

From Stdlib Require Import ZArith List String Ascii Bool Lia Floats QArith.
From Stdlib Require Import Qround.
From Stdlib Require Import DecimalString.
Import ListNotations.

Set Warnings "-inexact-float,-register-all".
Local Close Scope Q_scope.
Local Open Scope string_scope.

(* ------------------------------------------------------------------ *)
(** ** JavaScript values and built-ins *)

Module JS.

(** Values produced by [JSON.parse]. [undefined] is not a JSON value: a
    property read that finds nothing is [None] of [option value]. Numbers
    are IEEE 754 binary64, as in JavaScript. An object is the list of
    its own properties; a read returns the first binding of the key. *)
Inductive value : Type :=
| Null
| Bool (b : bool)
| Num (n : float)
| Str (s : string)
| Arr (items : list value)
| Obj (props : list (string * value)).

(** A thrown value. The component only ever reads [.message] of what it
    catches, which is [undefined] when the thrown value is not an
    [Error] (a rejected [FileReader] event, for instance). *)
Record exn : Type := Thrown { message : option string }.

Inductive result (A : Type) : Type :=
| Ok (a : A)
| Throw (e : exn).
Arguments Ok {A} a.
Arguments Throw {A} e.

(** [new Error(msg)] *)
Definition Error (msg : string) : exn := Thrown (Some msg).

(** The [TypeError] the engine raises on a property read of [null] or
    [undefined], or on a call of something that is not a function. Its
    message is engine-specific and is left as a fixed text. *)
Definition TypeError : exn := Thrown (Some "TypeError").

Fixpoint lookup (k : string) (props : list (string * value)) : option value :=
  match props with
  | [] => None
  | (k', v) :: rest => if String.eqb k k' then Some v else lookup k rest
  end.

(** [v.k] / [v[k]] for the keys the component reads: none of them is a
    property of a prototype, so on a primitive or an array the read is
    [undefined]. Reading a property of [null] throws. *)
Definition get (v : value) (k : string) : result (option value) :=
  match v with
  | Null => Throw TypeError
  | Obj props => Ok (lookup k props)
  | _ => Ok None
  end.

(** [x ?? d] *)
Definition coalesce (x : option value) (d : value) : value :=
  match x with
  | None | Some Null => d
  | Some v => v
  end.

Definition is_nan (f : float) : bool := negb (PrimFloat.eqb f f).

(** ToBoolean *)
Definition truthy (v : value) : bool :=
  match v with
  | Null => false
  | Bool b => b
  | Num f => negb (PrimFloat.eqb f 0%float || is_nan f)
  | Str s => negb (String.eqb s "")
  | Arr _ | Obj _ => true
  end.

Definition truthy_opt (x : option value) : bool :=
  match x with
  | None => false
  | Some v => truthy v
  end.

(** [x === 'lit'] for a string literal *)
Definition strict_eq_string (x : option value) (lit : string) : bool :=
  match x with
  | Some (Str s) => String.eqb s lit
  | _ => false
  end.

(** ToNumber on the values whose conversion does not go through the
    string-to-number grammar; [None] on the others (strings, arrays,
    objects), whose conversion is not part of this model. *)
Definition ToNumber (x : option value) : option float :=
  match x with
  | None => Some nan
  | Some Null => Some 0%float
  | Some (Bool true) => Some 1%float
  | Some (Bool false) => Some 0%float
  | Some (Num f) => Some f
  | Some (Str _) | Some (Arr _) | Some (Obj _) => None
  end.

(** *** Numbers *)

(** The real number a finite binary64 value stands for. *)
Definition float_value (x : float) : option Q :=
  match Prim2SF x with
  | S754_zero _ => Some 0%Q
  | S754_finite s m e =>
      let sm := if s then Z.neg m else Z.pos m in
      Some (if (0 <=? e)%Z then inject_Z (sm * 2 ^ e)
            else Qmake sm (2 ^ Z.to_pos (- e)))
  | S754_infinity _ | S754_nan => None
  end.

(** The mathematical integer [floor (x + 1/2)] of a finite [x], computed
    exactly on the mantissa and the exponent. *)
Definition round_half_up (x : float) : option Z :=
  match Prim2SF x with
  | S754_zero _ => Some 0%Z
  | S754_finite s m e =>
      let sm := if s then Z.neg m else Z.pos m in
      Some (if (0 <=? e)%Z then sm * 2 ^ e
            else (2 * sm + 2 ^ (- e)) / 2 ^ (- e + 1))%Z
  | S754_infinity _ | S754_nan => None
  end.

(** The float of an integer below 2^53 in magnitude (exact). *)
Definition float_of_Z (n : Z) : float :=
  match n with
  | Z0 => 0%float
  | Zpos _ => PrimFloat.of_uint63 (Uint63.of_Z n)
  | Zneg _ => PrimFloat.opp (PrimFloat.of_uint63 (Uint63.of_Z (- n)))
  end.

(** [Math.round(x)]: [x] itself when it is not finite or already an
    integer; otherwise the integer closest to [x], ties towards
    +infinity, with the sign of [x] on a zero result. *)
Definition Math_round (x : float) : float :=
  match Prim2SF x with
  | S754_finite s m e =>
      if (0 <=? e)%Z then x
      else
        match round_half_up x with
        | Some Z0 => if s then (-0)%float else 0%float
        | Some n => float_of_Z n
        | None => x
        end
  | _ => x
  end.

(** The integer a float stands for, when it is finite and integral. *)
Definition integral_value (x : float) : option Z :=
  match Prim2SF x with
  | S754_zero _ => Some 0%Z
  | S754_finite s m e =>
      let sm := if s then Z.neg m else Z.pos m in
      if (0 <=? e)%Z then Some (sm * 2 ^ e)%Z
      else if (sm mod 2 ^ (- e) =? 0)%Z then Some (sm / 2 ^ (- e))%Z
      else None
  | S754_infinity _ | S754_nan => None
  end.

Definition string_of_Z (n : Z) : string :=
  NilZero.string_of_int (Z.to_int n).

(** Number-to-string conversion, on the numbers [Math.round] returns
    whose text is their exact decimal notation: NaN, the infinities and
    the integers below 2^53 in magnitude, where neighbouring integers
    are distinct floats. [None] elsewhere: from 2^53 on the text is the
    shortest one that reads back as the same float, padded with zeros,
    which is not modelled. *)
Definition NumberToString (x : float) : option string :=
  match Prim2SF x with
  | S754_nan => Some "NaN"
  | S754_infinity false => Some "Infinity"
  | S754_infinity true => Some "-Infinity"
  | _ =>
      match integral_value x with
      | Some n => if (Z.abs n <? 2 ^ 53)%Z then Some (string_of_Z n) else None
      | None => None
      end
  end.

(** *** Strings *)

(** [s.startsWith(p)] *)
Definition startsWith (s p : string) : bool := String.prefix p s.

(** [xs.join('')] on strings *)
Definition join (xs : list string) : string := String.concat "" xs.

(** [String(n)] for a non-negative integer *)
Definition string_of_nat (n : nat) : string :=
  NilZero.string_of_uint (Nat.to_uint n).

(** [s.replace(/```json|```/g, '')]: at each position the longer
    alternative is tried first; [skip] counts the characters of a match
    still to drop. *)
Fixpoint stripFences_from (skip : nat) (s : string) : string :=
  match s with
  | EmptyString => EmptyString
  | String c rest =>
      match skip with
      | S k => stripFences_from k rest
      | O =>
          if String.prefix "```json" s then stripFences_from 6 rest
          else if String.prefix "```" s then stripFences_from 2 rest
          else String c (stripFences_from 0 rest)
      end
  end.

Definition stripFences (s : string) : string := stripFences_from 0 s.

(** Strings are byte strings, in UTF-8. *)
Definition bytes (codes : list nat) : string :=
  fold_right (fun n s => String (ascii_of_nat n) s) EmptyString codes.

(** The white space and line terminators [String.prototype.trim]
    removes, as UTF-8 byte sequences: U+0009 to U+000D, U+0020, U+00A0,
    U+1680, U+2000 to U+200A, U+2028, U+2029, U+202F, U+205F, U+3000
    and U+FEFF. *)
Definition whiteSpace : list (list nat) :=
  [ [9]; [10]; [11]; [12]; [13]; [32];
    [194; 160];
    [225; 154; 128];
    [226; 128; 128]; [226; 128; 129]; [226; 128; 130]; [226; 128; 131];
    [226; 128; 132]; [226; 128; 133]; [226; 128; 134]; [226; 128; 135];
    [226; 128; 136]; [226; 128; 137]; [226; 128; 138];
    [226; 128; 168]; [226; 128; 169]; [226; 128; 175];
    [226; 129; 159];
    [227; 128; 128];
    [239; 187; 191] ].

(** The number of bytes of the sequence of [seqs] that [s] starts with,
    0 when it starts with none. *)
Definition leading (seqs : list (list nat)) (s : string) : nat :=
  match find (fun codes => String.prefix (bytes codes) s) seqs with
  | Some codes => List.length codes
  | None => 0
  end.

(** Drop the sequences of [seqs] the string starts with; [skip] counts
    the bytes of a sequence still to drop. *)
Fixpoint dropLeading (seqs : list (list nat)) (skip : nat) (s : string)
    : string :=
  match s with
  | EmptyString => EmptyString
  | String c rest =>
      match skip with
      | S k => dropLeading seqs k rest
      | O =>
          match leading seqs s with
          | S k => dropLeading seqs k rest
          | O => s
          end
      end
  end.

Fixpoint rev_string (acc s : string) : string :=
  match s with
  | EmptyString => acc
  | String c rest => rev_string (String c acc) rest
  end.

(** [s.trim()]: white space is dropped at the start, and at the end by
    dropping the reversed sequences from the reversed string. *)
Definition trim (s : string) : string :=
  rev_string ""
    (dropLeading (map (@rev nat) whiteSpace) 0
       (rev_string "" (dropLeading whiteSpace 0 s))).

(** The double-quote character, for texts that contain it. *)
Definition dq : string := String (ascii_of_nat 34) EmptyString.


End JS.

(* ------------------------------------------------------------------ *)
(** ** The moderation client *)

Module Moderation.
Import JS.

(** A [File]: only its MIME type is read by the component. *)
Record File : Type := { file_name : string; file_type : string }.

(** [UploadedMedia['aiAnalysis']] as it exists at run time: the fields
    are whatever [JSON.parse] produced, the declared types are erased.
    [contentType] is always built as a one-element array literal. *)
Record AiAnalysis : Type := {
  contentType : list value;
  tags : value;
  moderationStatus : option value;
  moderationReasons : value;
  confidence : value;
  flaggedCategories : value
}.

(** [import.meta.env] *)
Record Env : Type := {
  VITE_ANTHROPIC_API_KEY : option string;
  VITE_ANTHROPIC_MODEL : option string
}.

(** The body of the request, before [JSON.stringify]. *)
Inductive ContentBlock : Type :=
| ImageBlock (media_type data : string)
| TextBlock (text : string).

Record Message : Type := { role : string; content : list ContentBlock }.

Record Body : Type := {
  model : string;
  max_tokens : nat;
  system : string;
  messages : list Message
}.

Record Request : Type := {
  endpoint : string;
  method : string;
  headers : list (string * string);
  body : Body
}.

(** A block of the reply, at the type the source annotates it with:
    [{ text?: string }]. *)
Record ReplyBlock : Type := { block_text : option string }.

(** A [Response]: its status, and what [response.text()] and
    [response.json()] (read as [{ content: ReplyBlock[] }]) resolve to. *)
Record Response : Type := {
  status : nat;
  text : result string;
  json : result (list ReplyBlock)
}.

(** [response.ok] *)
Definition ok (r : Response) : bool :=
  ((200 <=? status r) && (status r <=? 299))%nat.

(** What the browser and the network answer to each call. *)
Record World : Type := {
  extractVideoFrame_result : File -> result string;
  fileToBase64_result : File -> result string;
  fetch_result : Request -> result Response;
  JSON_parse : string -> result value
}.

(** The calls that leave the function, in the order they are made. *)
Inductive Effect : Type :=
| ExtractVideoFrame (file : File)
| FileToBase64 (file : File)
| Fetch (req : Request)
| ResponseText
| ResponseJson.

(** Computations that perform effects and may throw: the effects made
    so far and the outcome. *)
Definition M (A : Type) : Type := (list Effect * result A)%type.

Definition ret {A} (a : A) : M A := ([], Ok a).

Definition throw {A} (e : exn) : M A := ([], Throw e).

Definition bind {A B} (m : M A) (f : A -> M B) : M B :=
  match m with
  | (tr, Ok a) => let (tr', r) := f a in ((tr ++ tr')%list, r)
  | (tr, Throw e) => (tr, Throw e)
  end.

Definition perform {A} (ev : Effect) (r : result A) : M A := ([ev], r).

Definition lift {A} (r : result A) : M A := ([], r).

Notation "x <- m ;; k" := (bind m (fun x => k))
  (at level 61, m at next level, right associativity).

Definition extractVideoFrame (w : World) (file : File) : M string :=
  perform (ExtractVideoFrame file) (extractVideoFrame_result w file).

Definition fileToBase64 (w : World) (file : File) : M string :=
  perform (FileToBase64 file) (fileToBase64_result w file).

Definition fetch (w : World) (req : Request) : M Response :=
  perform (Fetch req) (fetch_result w req).

Definition newline : string := String (ascii_of_nat 10) EmptyString.

Definition lines (ls : list string) : string := String.concat newline ls.

(** [dq ++ s ++ dq] *)
Definition quoted (s : string) : string := dq ++ s ++ dq.

Definition systemPrompt : string := lines [
  "You are a professional content moderation AI for a beauty & wellness marketplace called Treatwell.";
  "Analyse the image and return a structured JSON response.";
  "";
  "Check for:";
  "1. Nudity or sexual content (any level)";
  "2. Profanity or offensive text visible in the image";
  "3. Violence or gore";
  "4. Drugs, weapons, or illegal items";
  "5. Contact information (phone numbers, emails, social media handles)";
  "6. Off-topic content — this platform only allows: haircuts, hair colouring, manicures, pedicures, facials, massages, makeup, hair styling, skincare, waxing, brow/lash treatments";
  "";
  "Respond ONLY with a valid JSON object — no markdown, no code fences, no extra text:";
  "{";
  "  " ++ quoted "moderationStatus" ++ ": " ++ quoted "safe" ++ ",";
  "  " ++ quoted "moderationReasons" ++ ": [],";
  "  " ++ quoted "contentType" ++ ": " ++ quoted "e.g. Hair Colouring" ++ ",";
  "  " ++ quoted "tags" ++ ": [" ++ quoted "tag1" ++ ", " ++ quoted "tag2" ++ ", " ++ quoted "tag3" ++ "],";
  "  " ++ quoted "confidence" ++ ": 0.95,";
  "  " ++ quoted "flaggedCategories" ++ ": {";
  "    " ++ quoted "nudity" ++ ": false,";
  "    " ++ quoted "profanity" ++ ": false,";
  "    " ++ quoted "violence" ++ ": false,";
  "    " ++ quoted "illegalItems" ++ ": false,";
  "    " ++ quoted "contactInfo" ++ ": false,";
  "    " ++ quoted "offTopicContent" ++ ": false";
  "  }";
  "}";
  "";
  "Set moderationStatus to " ++ quoted "unsafe" ++ " and populate moderationReasons with clear user-friendly explanations if any category is flagged."
].

Definition defaultModel : string := "claude-sonnet-4-20250514".

Definition missingKeyMessage : string :=
  "Missing VITE_ANTHROPIC_API_KEY. Add it to your .env and restart the dev server.".

(** [!apiKey] *)
Definition falsy_key (apiKey : option string) : bool :=
  match apiKey with
  | None => true
  | Some k => String.eqb k ""
  end.

Definition key_text (apiKey : option string) : string :=
  match apiKey with
  | None => ""
  | Some k => k
  end.

Definition moderationRequest
    (apiKey model mediaType base64Data : string) (isVideo : bool) : Request :=
  {| endpoint := "https://api.anthropic.com/v1/messages";
     method := "POST";
     headers :=
       [ ("Content-Type", "application/json");
         ("x-api-key", apiKey);
         ("anthropic-version", "2023-06-01");
         ("anthropic-dangerous-direct-browser-access", "true") ];
     body :=
       {| model := model;
          max_tokens := 1000;
          system := systemPrompt;
          messages :=
            [ {| role := "user";
                 content :=
                   [ ImageBlock mediaType base64Data;
                     TextBlock
                       (if isVideo
                        then "This is a frame extracted from a video upload. Please moderate it."
                        else "Please moderate this image upload.") ] |} ] |} |}.

(** The two messages of a response that is not [ok]. *)
Definition notFoundMessage (model err : string) : string :=
  "Moderation API error (404): model " ++ quoted model ++
  " not found for this API key. " ++
  "Double-check VITE_ANTHROPIC_MODEL against the /v1/models list. Raw: " ++ err.

Definition apiErrorMessage (status : nat) (err : string) : string :=
  "Moderation API error (" ++ string_of_nat status ++ "): " ++ err.

Definition noFlags : value :=
  Obj [ ("nudity", Bool false);
        ("profanity", Bool false);
        ("violence", Bool false);
        ("illegalItems", Bool false);
        ("contactInfo", Bool false);
        ("offTopicContent", Bool false) ].

Definition bind_result {A B} (r : result A) (f : A -> result B) : result B :=
  match r with
  | Ok a => f a
  | Throw e => Throw e
  end.

(** The object [analyzeMediaWithClaude] returns, from the parsed
    verdict. Every property read throws when [parsed] is [null]. *)
Definition verdict (parsed : value) : result AiAnalysis :=
  bind_result (get parsed "contentType") (fun p_contentType =>
  bind_result (get parsed "tags") (fun p_tags =>
  bind_result (get parsed "moderationStatus") (fun p_moderationStatus =>
  bind_result (get parsed "moderationReasons") (fun p_moderationReasons =>
  bind_result (get parsed "confidence") (fun p_confidence =>
  bind_result (get parsed "flaggedCategories") (fun p_flaggedCategories =>
  Ok {| contentType := [coalesce p_contentType (Str "Unknown")];
        tags := coalesce p_tags (Arr []);
        moderationStatus := p_moderationStatus;
        moderationReasons := coalesce p_moderationReasons (Arr []);
        confidence := coalesce p_confidence (Num 0.9);
        flaggedCategories := coalesce p_flaggedCategories noFlags |})))))).

(** [b.text ?? ''] *)
Definition block_text_or_empty (b : ReplyBlock) : string :=
  match block_text b with
  | Some s => s
  | None => ""
  end.

Definition analyzeMediaWithClaude (env : Env) (w : World) (file : File)
    : M AiAnalysis :=
  let isVideo := startsWith (file_type file) "video/" in
  let mediaType := if isVideo then "image/jpeg" else file_type file in
  base64Data <- (if isVideo then extractVideoFrame w file
                 else fileToBase64 w file) ;;
  let apiKey := VITE_ANTHROPIC_API_KEY env in
  let model :=
    match VITE_ANTHROPIC_MODEL env with
    | Some m => m
    | None => defaultModel
    end in
  if falsy_key apiKey then throw (Error missingKeyMessage)
  else
    response <- fetch w (moderationRequest (key_text apiKey) model mediaType
                           base64Data isVideo) ;;
    if negb (ok response) then
      err <- perform ResponseText (text response) ;;
      if (status response =? 404)%nat
      then throw (Error (notFoundMessage model err))
      else throw (Error (apiErrorMessage (status response) err))
    else
      data <- perform ResponseJson (json response) ;;
      let raw := join (map block_text_or_empty data) in
      let clean := trim (stripFences raw) in
      parsed <- lift (JSON_parse w clean) ;;
      lift (verdict parsed).

End Moderation.

(* ------------------------------------------------------------------ *)
(** ** The modal: upload records, handlers, object URLs *)

Module Modal.
Import JS Moderation.

Inductive MediaType : Type := image | video.

Inductive Status : Type := analyzing | approved | rejected | error.

Definition Status_eqb (a b : Status) : bool :=
  match a, b with
  | analyzing, analyzing | approved, approved
  | rejected, rejected | error, error => true
  | _, _ => false
  end.

(** An object URL, identified by the serial number under which
    [URL.createObjectURL] handed it out. *)
Definition URL : Type := nat.

(** [interface UploadedMedia]; the optional [error] text is
    [errorMessage] here, [error] being a status. *)
Record UploadedMedia : Type := {
  id : string;
  file : File;
  url : URL;
  type : MediaType;
  status : Status;
  aiAnalysis : option AiAnalysis;
  errorMessage : option string
}.

(** Calls to the [URL] object of the browser. *)
Inductive UrlCall : Type :=
| createObjectURL (u : URL)
| revokeObjectURL (u : URL).

(** The state of [StoryUploadModal] (its three [useState] cells)
    together with what its handlers have done to their surroundings:
    the calls they made on [URL] for the preview URLs of the records,
    the next preview URL, and the arguments [onOpenChange] was called
    with. The object URL [extractVideoFrame] makes and releases for
    itself while a video is analysed is not a preview URL and is not in
    this log; its life is in [Encoding]. *)
Record State : Type := {
  uploadedMedia : list UploadedMedia;
  isPublishing : bool;
  showSuccessDialog : bool;
  urlCalls : list UrlCall;
  nextURL : URL;
  onOpenChange : list bool
}.

Definition initial : State :=
  {| uploadedMedia := [];
     isPublishing := false;
     showSuccessDialog := false;
     urlCalls := [];
     nextURL := 0;
     onOpenChange := [] |}.

(** [setUploadedMedia] *)
Definition setUploadedMedia (ms : list UploadedMedia) (s : State) : State :=
  {| uploadedMedia := ms;
     isPublishing := isPublishing s;
     showSuccessDialog := showSuccessDialog s;
     urlCalls := urlCalls s;
     nextURL := nextURL s;
     onOpenChange := onOpenChange s |}.

Definition setIsPublishing (b : bool) (s : State) : State :=
  {| uploadedMedia := uploadedMedia s;
     isPublishing := b;
     showSuccessDialog := showSuccessDialog s;
     urlCalls := urlCalls s;
     nextURL := nextURL s;
     onOpenChange := onOpenChange s |}.

Definition setShowSuccessDialog (b : bool) (s : State) : State :=
  {| uploadedMedia := uploadedMedia s;
     isPublishing := isPublishing s;
     showSuccessDialog := b;
     urlCalls := urlCalls s;
     nextURL := nextURL s;
     onOpenChange := onOpenChange s |}.

(** [URL.revokeObjectURL(u)] *)
Definition revoke (u : URL) (s : State) : State :=
  {| uploadedMedia := uploadedMedia s;
     isPublishing := isPublishing s;
     showSuccessDialog := showSuccessDialog s;
     urlCalls := urlCalls s ++ [revokeObjectURL u];
     nextURL := nextURL s;
     onOpenChange := onOpenChange s |}.

(** [URL.createObjectURL(file)]: a URL never handed out before. *)
Definition create (s : State) : URL * State :=
  (nextURL s,
   {| uploadedMedia := uploadedMedia s;
      isPublishing := isPublishing s;
      showSuccessDialog := showSuccessDialog s;
      urlCalls := urlCalls s ++ [createObjectURL (nextURL s)];
      nextURL := S (nextURL s);
      onOpenChange := onOpenChange s |}).

(** [onOpenChange(b)] *)
Definition callOnOpenChange (b : bool) (s : State) : State :=
  {| uploadedMedia := uploadedMedia s;
     isPublishing := isPublishing s;
     showSuccessDialog := showSuccessDialog s;
     urlCalls := urlCalls s;
     nextURL := nextURL s;
     onOpenChange := onOpenChange s ++ [b] |}.

(** [files[0]] after the guard [!files || files.length === 0] *)
Definition firstFile (files : option (list File)) : option File :=
  match files with
  | Some (f :: _) => Some f
  | _ => None
  end.

Definition isImage (f : File) : bool := startsWith (file_type f) "image/".
Definition isVideo (f : File) : bool := startsWith (file_type f) "video/".

Definition newMedia (newId : string) (f : File) (u : URL) : UploadedMedia :=
  {| id := newId;
     file := f;
     url := u;
     type := if isImage f then image else video;
     status := analyzing;
     aiAnalysis := None;
     errorMessage := None |}.

(** [handleFileSelect] up to its [await]. [newId] is what
    [Math.random().toString(36).substring(7)] evaluates to. *)
Definition handleFileSelect (files : option (list File)) (newId : string)
    (s : State) : State :=
  match firstFile files with
  | None => s
  | Some f =>
      if negb (isImage f) && negb (isVideo f) then s
      else
        let s1 := fold_left (fun acc media => revoke (url media) acc)
                    (uploadedMedia s) s in
        let (u, s2) := create s1 in
        setUploadedMedia [newMedia newId f u] s2
  end.

(** The record an analysis that resolved turns [m] into. *)
Definition withAnalysis (analysis : AiAnalysis) (m : UploadedMedia)
    : UploadedMedia :=
  {| id := id m;
     file := file m;
     url := url m;
     type := type m;
     status := if strict_eq_string (moderationStatus analysis) "safe"
               then approved else rejected;
     aiAnalysis := Some analysis;
     errorMessage := errorMessage m |}.

(** The record an analysis that threw turns [m] into. *)
Definition withError (err : exn) (m : UploadedMedia) : UploadedMedia :=
  {| id := id m;
     file := file m;
     url := url m;
     type := type m;
     status := error;
     aiAnalysis := aiAnalysis m;
     errorMessage := message err |}.

(** [handleFileSelect] after its [await]: the [try] branch on a resolved
    analysis, the [catch] branch on a thrown value. Both update through
    [setUploadedMedia(prev => prev.map(...))], on the state of the time. *)
Definition analysisSettled (newId : string) (outcome : result AiAnalysis)
    (s : State) : State :=
  setUploadedMedia
    (map (fun m =>
            if negb (String.eqb (id m) newId) then m
            else match outcome with
                 | Ok analysis => withAnalysis analysis m
                 | Throw err => withError err m
                 end)
         (uploadedMedia s))
    s.

Definition removeMedia (i : string) (s : State) : State :=
  let prev := uploadedMedia s in
  let s1 := match find (fun m => String.eqb (id m) i) prev with
            | Some media => revoke (url media) s
            | None => s
            end in
  setUploadedMedia (filter (fun m => negb (String.eqb (id m) i)) prev) s1.

Definition approvedCount (s : State) : nat :=
  List.length (filter (fun m => Status_eqb (status m) approved) (uploadedMedia s)).

Definition analyzingCount (s : State) : nat :=
  List.length (filter (fun m => Status_eqb (status m) analyzing) (uploadedMedia s)).

(** [handlePublish] up to its [await], and after the two seconds. *)
Definition handlePublish (s : State) : State :=
  if (0 <? approvedCount s)%nat then setIsPublishing true s else s.

Definition publishDone (s : State) : State :=
  setShowSuccessDialog true (setIsPublishing false s).

Definition handleSuccessClose (s : State) : State :=
  callOnOpenChange false (setUploadedMedia [] (setShowSuccessDialog false s)).

(** The [Cancel] button and the back arrow. *)
Definition cancel (s : State) : State := callOnOpenChange false s.

(** The [disabled] attribute of the [Publish] button. *)
Definition publishDisabled (s : State) : bool :=
  ((approvedCount s =? 0) || (0 <? analyzingCount s))%nat.

(** What can happen to the modal. *)
Inductive Event : Type :=
| FileSelected (files : option (list File)) (newId : string)
| AnalysisSettled (newId : string) (outcome : result AiAnalysis)
| RemoveClicked (i : string)
| PublishClicked
| PublishTimerFired
| SuccessDoneClicked
| CancelClicked.

Definition step (s : State) (e : Event) : State :=
  match e with
  | FileSelected files newId => handleFileSelect files newId s
  | AnalysisSettled newId outcome => analysisSettled newId outcome s
  | RemoveClicked i => removeMedia i s
  | PublishClicked => handlePublish s
  | PublishTimerFired => publishDone s
  | SuccessDoneClicked => handleSuccessClose s
  | CancelClicked => cancel s
  end.

Definition run (s : State) (events : list Event) : State :=
  fold_left step events s.

Inductive reachable : State -> Prop :=
| reachable_initial : reachable initial
| reachable_step s e : reachable s -> reachable (step s e).

(** The whole of [handleFileSelect] for one file: selection, then the
    outcome of the moderation call in world [w]. *)
Definition selectAndAnalyze (env : Env) (w : World) (f : File)
    (newId : string) (s : State) : State :=
  analysisSettled newId (snd (analyzeMediaWithClaude env w f))
    (handleFileSelect (Some [f]) newId s).

(** How often a URL was handed out, and how often it was released. *)
Definition allocations (u : URL) (s : State) : nat :=
  List.length (filter (fun c => match c with
                           | createObjectURL v => Nat.eqb u v
                           | revokeObjectURL _ => false
                           end) (urlCalls s)).

Definition releases (u : URL) (s : State) : nat :=
  List.length (filter (fun c => match c with
                           | revokeObjectURL v => Nat.eqb u v
                           | createObjectURL _ => false
                           end) (urlCalls s)).

(** A URL is held when a record of the state refers to it. *)
Definition held (u : URL) (s : State) : bool :=
  existsb (fun m => Nat.eqb (url m) u) (uploadedMedia s).

End Modal.

(* ------------------------------------------------------------------ *)
(** ** The analysis panel *)

Module Panel.
Import JS Moderation Modal.

(** What a component function does: return an element tree, throw, or
    depend on a conversion this model leaves out (see [ToNumber]). *)
Inductive outcome (A : Type) : Type :=
| Returns (a : A)
| Throws (e : exn)
| NotModelled.
Arguments Returns {A} a.
Arguments Throws {A} e.
Arguments NotModelled {A}.

Definition FLAG_LABELS : list (string * string) :=
  [ ("nudity", "Nudity / Sexual content");
    ("profanity", "Profanity / Offensive text");
    ("violence", "Violence / Gore");
    ("illegalItems", "Drugs / Weapons / Illegal items");
    ("contactInfo", "Contact information");
    ("offTopicContent", "Off-topic content") ].

(** A row of a category list: the label of the category and the text of
    the badge next to it. *)
Record Row : Type := { key : string; label : string; marker : string }.

(** The element tree of [AIAnalysisPanel], reduced to the children that
    depend on the record; values placed in the tree are kept as they
    are. [flaggedSection] and [reasonsSection] are [None] when the
    guarding [&&] leaves the section out. *)
Inductive View : Type :=
| Nothing
| AnalysisInProgress
| AnalysisFailed (text : string)
| ContentNotApproved (reasonsSection : option (list value))
    (flaggedSection : option (list Row)) (remediation : string)
| ContentApproved (contentTypeDetected : option value) (tagChips : list value)
    (confidencePct : float) (moderationChecks : list Row).

Definition remediationText : string :=
  "Please remove this content and upload a different picture or video that meets our guidelines.".

Definition unexpectedErrorText : string :=
  "An unexpected error occurred. Please try again.".

(** [flags[key]] as a condition *)
Definition flagSet (flags : value) (k : string) : result bool :=
  bind_result (get flags k) (fun x => Ok (truthy_opt x)).

(** [Object.entries(FLAG_LABELS).filter(([key]) => flags[key])] *)
Fixpoint triggeredFlags_of (flags : value) (entries : list (string * string))
    : result (list (string * string)) :=
  match entries with
  | [] => Ok []
  | (k, l) :: rest =>
      bind_result (flagSet flags k) (fun b =>
      bind_result (triggeredFlags_of flags rest) (fun kept =>
      Ok (if b then (k, l) :: kept else kept)))
  end.

Definition triggeredFlags (flags : value) : result (list (string * string)) :=
  triggeredFlags_of flags FLAG_LABELS.

(** [Object.entries(FLAG_LABELS).map(([key, label]) => ...)] of the
    approved panel: one row per category. *)
Fixpoint moderationChecks_of (flags : value) (entries : list (string * string))
    : result (list Row) :=
  match entries with
  | [] => Ok []
  | (k, l) :: rest =>
      bind_result (flagSet flags k) (fun flagged =>
      bind_result (moderationChecks_of flags rest) (fun rows =>
      Ok ({| key := k; label := l;
             marker := if flagged then "Flagged" else "Clear" |} :: rows)))
  end.

(** [(reasons?.length ?? 0) > 0 && reasons!.map(...)]. Only an array has
    a [map] to call: any other value with a positive [length] throws. *)
Definition reasonsList (reasons : value) : outcome (option (list value)) :=
  match reasons with
  | Arr items => Returns (if (0 <? List.length items)%nat then Some items else None)
  | Null | Bool _ | Num _ => Returns None
  | Str s => if String.eqb s "" then Returns None else Throws TypeError
  | Obj props =>
      match lookup "length" props with
      | None | Some Null => Returns None
      | Some v =>
          match ToNumber (Some v) with
          | Some n => if PrimFloat.ltb 0%float n then Throws TypeError
                      else Returns None
          | None => NotModelled
          end
      end
  end.

(** [tags.map(...)] *)
Definition tagList (tags : value) : result (list value) :=
  match tags with
  | Arr items => Ok items
  | _ => Throw TypeError
  end.

Definition of_result {A} (r : result A) : outcome A :=
  match r with
  | Ok a => Returns a
  | Throw e => Throws e
  end.

Definition and_then {A B} (o : outcome A) (f : A -> outcome B) : outcome B :=
  match o with
  | Returns a => f a
  | Throws e => Throws e
  | NotModelled => NotModelled
  end.

Definition rejectedPanel (a : AiAnalysis) : outcome View :=
  let flags := flaggedCategories a in
  and_then (of_result (triggeredFlags flags)) (fun triggered =>
  and_then (reasonsList (moderationReasons a)) (fun reasons =>
  Returns
    (ContentNotApproved reasons
       (if (0 <? List.length triggered)%nat
        then Some (map (fun kl => {| key := fst kl; label := snd kl;
                                     marker := "Flagged" |}) triggered)
        else None)
       remediationText))).

(** [Math.round(media.aiAnalysis.confidence * 100)] *)
Definition confidencePct_of (confidence : value) : option float :=
  match ToNumber (Some confidence) with
  | Some c => Some (Math_round (c * 100)%float)
  | None => None
  end.

Definition approvedPanel (a : AiAnalysis) : outcome View :=
  let flags := flaggedCategories a in
  match confidencePct_of (confidence a) with
  | None => NotModelled
  | Some pct =>
      and_then (of_result (tagList (tags a))) (fun chips =>
      and_then (of_result (moderationChecks_of flags FLAG_LABELS)) (fun rows =>
      Returns (ContentApproved (nth_error (contentType a) 0) chips pct rows)))
  end.

Definition AIAnalysisPanel (media : UploadedMedia) : outcome View :=
  match status media with
  | analyzing => Returns AnalysisInProgress
  | error =>
      Returns (AnalysisFailed
                 (match errorMessage media with
                  | Some t => t
                  | None => unexpectedErrorText
                  end))
  | rejected =>
      match aiAnalysis media with
      | Some a => rejectedPanel a
      | None => Returns Nothing
      end
  | approved =>
      match aiAnalysis media with
      | Some a => approvedPanel a
      | None => Returns Nothing
      end
  end.

(** The text of [{confidencePct}%]. *)
Definition percentText (pct : float) : option string :=
  match NumberToString pct with
  | Some digits => Some (digits ++ "%")
  | None => None
  end.

(** The rows of a panel: the flagged section of a rejection, the
    moderation checks of an approval. *)
Definition rows (v : View) : list Row :=
  match v with
  | ContentNotApproved _ (Some rs) _ => rs
  | ContentApproved _ _ _ rs => rs
  | _ => []
  end.

(** The analysis has the shape [interface UploadedMedia] declares. *)
Definition isStr (v : value) : bool :=
  match v with Str _ => true | _ => false end.

Definition isStrArray (v : value) : bool :=
  match v with Arr items => forallb isStr items | _ => false end.

Definition isBoolField (flags : value) (k : string) : bool :=
  match flags with
  | Obj props => match lookup k props with Some (Bool _) => true | _ => false end
  | _ => false
  end.

Definition wellTyped (a : AiAnalysis) : bool :=
  forallb isStr (contentType a)
  && isStrArray (tags a)
  && isStrArray (moderationReasons a)
  && match confidence a with Num _ => true | _ => false end
  && forallb (fun kl => isBoolField (flaggedCategories a) (fst kl)) FLAG_LABELS.

(** The categories of [flags] that are set, by key. *)
Definition flaggedKeys (flags : value) : list string :=
  filter (fun k => match get flags k with
                   | Ok x => truthy_opt x
                   | Throw _ => false
                   end)
         (map fst FLAG_LABELS).

End Panel.

(* ------------------------------------------------------------------ *)
(** ** Sample inputs *)

Module Samples.
Import JS Moderation Modal Panel.

Definition photo : File :=
  {| file_name := "balayage.png"; file_type := "image/png" |}.

Definition clip : File :=
  {| file_name := "manicure.mp4"; file_type := "video/mp4" |}.

Definition brochure : File :=
  {| file_name := "prices.pdf"; file_type := "application/pdf" |}.

(** A verdict that only says [safe]. *)
Definition bareSafe : value := Obj [ ("moderationStatus", Str "safe") ].

(** A full verdict flagging nudity and violence. *)
Definition twoFlags : value :=
  Obj [ ("nudity", Bool true);
        ("profanity", Bool false);
        ("violence", Bool true);
        ("illegalItems", Bool false);
        ("contactInfo", Bool false);
        ("offTopicContent", Bool false) ].

Definition unsafeVerdict : value :=
  Obj [ ("moderationStatus", Str "unsafe");
        ("moderationReasons", Arr [Str "The image shows nudity."]);
        ("contentType", Str "Massage");
        ("tags", Arr [Str "massage"]);
        ("confidence", Num 0.97);
        ("flaggedCategories", twoFlags) ].

Definition safeAnalysis : AiAnalysis :=
  {| contentType := [Str "Hair Colouring"];
     tags := Arr [Str "balayage"; Str "blonde"];
     moderationStatus := Some (Str "safe");
     moderationReasons := Arr [];
     confidence := Num 0.873;
     flaggedCategories := noFlags |}.

Definition unsafeAnalysis : AiAnalysis :=
  {| contentType := [Str "Massage"];
     tags := Arr [Str "massage"];
     moderationStatus := Some (Str "unsafe");
     moderationReasons := Arr [Str "The image shows nudity."];
     confidence := Num 0.97;
     flaggedCategories := twoFlags |}.

Definition approvedRecord : UploadedMedia :=
  {| id := "k3x9q"; file := photo; url := 0; type := image;
     status := approved; aiAnalysis := Some safeAnalysis;
     errorMessage := None |}.

Definition rejectedRecord : UploadedMedia :=
  {| id := "p7m2c"; file := photo; url := 0; type := image;
     status := rejected; aiAnalysis := Some unsafeAnalysis;
     errorMessage := None |}.

Definition noKey : Env :=
  {| VITE_ANTHROPIC_API_KEY := None; VITE_ANTHROPIC_MODEL := None |}.

Definition withKey : Env :=
  {| VITE_ANTHROPIC_API_KEY := Some "sk-test";
     VITE_ANTHROPIC_MODEL := Some "claude-test-model" |}.

(** A world whose endpoint answers every request with [r]. *)
Definition answering (r : Response) : World :=
  {| extractVideoFrame_result := fun _ => Ok "ZnJhbWU=";
     fileToBase64_result := fun _ => Ok "cGhvdG8=";
     fetch_result := fun _ => Ok r;
     JSON_parse := fun _ => Ok bareSafe |}.

Definition notFound : Response :=
  {| Moderation.status := 404;
     text := Ok "model not found";
     json := Throw (Error "Unexpected token") |}.

Definition okReply : Response :=
  {| Moderation.status := 200;
     text := Ok "";
     json := Ok [ {| block_text := Some "{}" |} ] |}.

(** Select a photo, have it approved, publish, confirm. *)
Definition publishSession : list Event :=
  [ FileSelected (Some [photo]) "k3x9q";
    AnalysisSettled "k3x9q" (Ok safeAnalysis);
    PublishClicked;
    PublishTimerFired;
    SuccessDoneClicked ].

(** Select a photo, remove it while analysing, select a clip. *)
Definition removeSession : list Event :=
  [ FileSelected (Some [photo]) "k3x9q";
    RemoveClicked "k3x9q";
    FileSelected (Some [clip]) "p7m2c" ].

End Samples.

(* ------------------------------------------------------------------ *)
(** ** Invariants and properties to be checked *)

Module Properties.
Import JS Moderation Modal Panel.

(** Every record holds a URL that was handed out, and there is at most
    one record. *)
Definition tidy (s : State) : Prop :=
  (List.length (uploadedMedia s) <= 1)%nat /\
  (forall m, In m (uploadedMedia s) -> (url m < nextURL s)%nat).

(** Object URLs are accounted for: a URL was handed out once if its
    number is below [nextURL] and never otherwise; it has been released
    once if no record holds it any more, and not at all while a record
    holds it. *)
Definition balanced (s : State) : Prop :=
  forall u : URL,
    allocations u s = (if (u <? nextURL s)%nat then 1 else 0)%nat /\
    releases u s = (if held u s then 0%nat else allocations u s).

(** The event draws [i] as the identifier of a new record. *)
Definition draws (i : string) (e : Event) : bool :=
  match e with
  | FileSelected _ newId => String.eqb newId i
  | _ => false
  end.

(** The event is the [Done] button of the success dialog. *)
Definition isSuccessClose (e : Event) : bool :=
  match e with
  | SuccessDoneClicked => true
  | _ => false
  end.

(** No record of the state has identifier [i]. *)
Definition absent (i : string) (s : State) : Prop :=
  forall m, In m (uploadedMedia s) -> id m <> i.

(** The one step [analyzeMediaWithClaude] takes before it looks at the
    credential: a frame of a video, the bytes of an image. *)
Definition encodingStep (f : File) : Effect :=
  if startsWith (file_type f) "video/" then ExtractVideoFrame f
  else FileToBase64 f.

Definition encodingOf (w : World) (f : File) : result string :=
  if startsWith (file_type f) "video/" then extractVideoFrame_result w f
  else fileToBase64_result w f.

(** The model identifier in use. *)
Definition configuredModel (env : Env) : string :=
  match VITE_ANTHROPIC_MODEL env with
  | Some m => m
  | None => defaultModel
  end.

(** The request sent for file [f] once encoded as [data]. *)
Definition requestOf (env : Env) (f : File) (data : string) : Request :=
  moderationRequest (key_text (VITE_ANTHROPIC_API_KEY env))
    (configuredModel env)
    (if startsWith (file_type f) "video/" then "image/jpeg" else file_type f)
    data (startsWith (file_type f) "video/").

(** Failing on the credential before anything else is done. *)
Definition failsBeforeAnyStep (env : Env) (w : World) (f : File) : Prop :=
  analyzeMediaWithClaude env w f = ([], Throw (Error missingKeyMessage)).

(** [parsed.k], [undefined] included. *)
Definition field (parsed : value) (k : string) : option value :=
  match get parsed k with
  | Ok x => x
  | Throw _ => None
  end.

(** The field is left out of the verdict. *)
Definition omitted (parsed : value) (k : string) : Prop :=
  field parsed k = None.

(** The field is there and holds [v]. *)
Definition present (parsed : value) (k : string) (v : value) : Prop :=
  field parsed k = Some v.

(** Every optional field that is present is stored as it is. *)
Definition presentFieldsKept (parsed : value) (a : AiAnalysis) : Prop :=
  (forall v, present parsed "tags" v -> tags a = v) /\
  (forall v, present parsed "moderationReasons" v -> moderationReasons a = v) /\
  (forall v, present parsed "confidence" v -> confidence a = v) /\
  (forall v, present parsed "flaggedCategories" v -> flaggedCategories a = v).

(** A verdict whose [tags] field is there, holding [null]. *)
Definition nullTags : value :=
  Obj [ ("moderationStatus", Str "safe"); ("tags", Null) ].

(** The panel shows a row for every category: [Flagged] for the ones
    set in the analysis, [Clear] for the others. *)
Definition marksEveryCategory (m : UploadedMedia) (a : AiAnalysis) : Prop :=
  exists v, AIAnalysisPanel m = Returns v /\
    forall k l, In (k, l) FLAG_LABELS ->
      In {| key := k; label := l;
            marker := if existsb (String.eqb k)
                           (flaggedKeys (flaggedCategories a))
                      then "Flagged" else "Clear" |}
         (rows v).

(** A late answer for a record that was removed puts it back in no
    form and leaves every record of the state as it is. *)
Definition lateAnswerIgnored (removed : UploadedMedia)
    (outcome : result AiAnalysis) (s1 : State) : Prop :=
  let s2 := analysisSettled (id removed) outcome s1 in
  ~ In removed (uploadedMedia s2) /\
  forall m, In m (uploadedMedia s1) -> In m (uploadedMedia s2).

(** The record of the call is approved exactly on [safe], and rejected
    on anything else. *)
Definition rejectedUnlessSafe (parsed : value) (newId : string) (s : State)
    : Prop :=
  forall m', In m' (uploadedMedia (analysisSettled newId (verdict parsed) s)) ->
    id m' = newId ->
    (Modal.status m' = approved <->
     field parsed "moderationStatus" = Some (Str "safe")) /\
    (field parsed "moderationStatus" <> Some (Str "safe") ->
     Modal.status m' = rejected).

(** The integer nearest to the exact product of the number [c] stands
    for and 100, a tie going up. *)
Definition exactPercent (c : float) : option Z :=
  match float_value c with
  | Some q => Some (Qfloor (q * 100 + (1 # 2)))
  | None => None
  end.

(** The panel shows the rounding of the exact product. *)
Definition showsExactPercent (m : UploadedMedia) (c : float) : Prop :=
  exists n shown chips pct checks,
    exactPercent c = Some n /\
    AIAnalysisPanel m = Returns (ContentApproved shown chips pct checks) /\
    percentText pct = Some (string_of_Z n ++ "%").

(** An approved record with confidence 0.995. *)
Definition nearlySure : UploadedMedia :=
  {| id := "k3x9q"; file := Samples.photo; url := 0; type := image;
     Modal.status := approved;
     aiAnalysis :=
       Some {| contentType := [Str "Hair Colouring"];
               tags := Arr [Str "balayage"];
               moderationStatus := Some (Str "safe");
               moderationReasons := Arr [];
               confidence := Num 0.995;
               flaggedCategories := noFlags |};
     errorMessage := None |}.

(** A photo is selected and removed, then a clip is selected and
    [Math.random] happens to give the identifier of the photo again
    (here the empty one, which [substring(7)] gives for every short
    expansion). *)
Definition sameIdAgain : State :=
  run (removeMedia "" (handleFileSelect (Some [Samples.photo]) "" initial))
    [FileSelected (Some [Samples.clip]) ""].

End Properties.

(* ------------------------------------------------------------------ *)
(** ** Encoding the media: data URLs and the video frame *)

Module Encoding.
Import JS.

(** [s.split(',')]: the pieces of [s] between commas, at least one. *)
Fixpoint split_comma (s : string) : list string :=
  match s with
  | EmptyString => [EmptyString]
  | String c rest =>
      if Ascii.eqb c ","%char then EmptyString :: split_comma rest
      else match split_comma rest with
           | piece :: pieces => String c piece :: pieces
           | [] => [String c EmptyString]
           end
  end.

(** [dataURL.split(',')[1]], the expression both [fileToBase64] and
    [extractVideoFrame] resolve with; [None] is [undefined]. *)
Definition payload (dataURL : string) : option string :=
  nth_error (split_comma dataURL) 1.


Definition sign_bit (x : float) : bool :=
  match Prim2SF x with
  | S754_zero s | S754_infinity s | S754_finite s _ _ => s
  | S754_nan => false
  end.

(** [Math.min(a, b)]: NaN when either is, the smaller otherwise, the
    negative zero of two zeros. *)
Definition Math_min (a b : float) : float :=
  if is_nan a || is_nan b then nan
  else if PrimFloat.leb b a
       then (if PrimFloat.leb a b
             then (if sign_bit a then a else b)
             else b)
       else a.

(** What [extractVideoFrame] reads of the video element and of the
    canvas: the duration and the size of the video, whether the canvas
    gives a 2d context, and what [canvas.toDataURL('image/jpeg', 0.8)]
    does. *)
Record Video : Type := {
  duration : float;
  videoWidth : nat;
  videoHeight : nat;
  has2dContext : bool;
  toDataURL : result string
}.

(** The events [extractVideoFrame] listens to. *)
Inductive VideoEvent : Type := loadeddata | seeked | error.

(** The run of one [extractVideoFrame] call: the position the video was
    sent to, the size given to the canvas, how often the object URL of
    the call was released, and what the promise settled with. *)
Record Extraction : Type := {
  currentTime : option float;
  canvasSize : option (nat * nat);
  revoked : nat;
  settled : option (result (option string))
}.

(** After [video.load()]: the object URL is made, nothing else yet. *)
Definition started : Extraction :=
  {| currentTime := None; canvasSize := None; revoked := 0; settled := None |}.

(** [resolve] and [reject] only act on a promise still pending. *)
Definition settle (r : result (option string)) (x : Extraction) : Extraction :=
  {| currentTime := currentTime x;
     canvasSize := canvasSize x;
     revoked := revoked x;
     settled := match settled x with
                | None => Some r
                | Some r0 => Some r0
                end |}.

(** [n || d] on a size *)
Definition or_default (n d : nat) : nat :=
  match n with
  | O => d
  | S _ => n
  end.

Definition onLoadedData (v : Video) (x : Extraction) : Extraction :=
  {| currentTime := Some (Math_min 1 (duration v * 0.1)%float);
     canvasSize := canvasSize x;
     revoked := revoked x;
     settled := settled x |}.

(** The [seeked] listener: size the canvas, draw (a [TypeError] when
    there is no context), release the URL, encode, resolve; whatever is
    thrown on the way rejects. *)
Definition onSeeked (v : Video) (x : Extraction) : Extraction :=
  let sized :=
    {| currentTime := currentTime x;
       canvasSize := Some (or_default (videoWidth v) 640,
                           or_default (videoHeight v) 360);
       revoked := revoked x;
       settled := settled x |} in
  if negb (has2dContext v) then settle (Throw TypeError) sized
  else
    let released :=
      {| currentTime := currentTime sized;
         canvasSize := canvasSize sized;
         revoked := S (revoked sized);
         settled := settled sized |} in
    match toDataURL v with
    | Ok dataURL => settle (Ok (payload dataURL)) released
    | Throw e => settle (Throw e) released
    end.

(** The [error] listener is [reject] itself: the promise rejects with
    the event, which has no [message]. *)
Definition onError (x : Extraction) : Extraction :=
  settle (Throw (Thrown None)) x.

Definition handle (v : Video) (x : Extraction) (e : VideoEvent) : Extraction :=
  match e with
  | loadeddata => onLoadedData v x
  | seeked => onSeeked v x
  | error => onError x
  end.

(** [extractVideoFrame] over the events the video element fires. *)
Definition extractVideoFrame (v : Video) (events : list VideoEvent) : Extraction :=
  fold_left (handle v) events started.



End Encoding.

(* ------------------------------------------------------------------ *)
(** ** What the modal shows *)

Module Screen.
Import JS Moderation Modal Panel.

(** The element tree of [CompactMediaPreview], reduced to what depends
    on the record: the element showing the media and its source, the
    badge, and the overlay if there is one. *)
Inductive MediaElement : Type := img | videoElement.

Record PreviewView : Type := {
  element : MediaElement;
  src : URL;
  badge : string;
  overlay : option string
}.

Definition CompactMediaPreview (media : UploadedMedia) : PreviewView :=
  {| element := match type media with image => img | video => videoElement end;
     src := url media;
     badge := match type media with image => "Image" | video => "Video" end;
     overlay :=
       match status media with
       | analyzing => Some "Analyzing..."
       | rejected => Some "Content Rejected"
       | approved | Modal.error => None
       end |}.

(** What the [Publish] button shows. *)
Inductive PublishLabel : Type := Spinner | PublishText.

(** The text of the footer status bar. *)
Definition footerText (n : nat) : string :=
  string_of_nat n ++ " item" ++ (if negb (n =? 1)%nat then "s" else "")
  ++ " ready to publish".

(** The element tree of [StoryUploadModal], reduced to what depends on
    the state. [uploadArea] tells whether the upload area, and with it
    the file input, is there; the previews and panels are there
    otherwise. *)
Record ModalView : Type := {
  successDialog : bool;
  publishIsDisabled : bool;
  publishLabel : PublishLabel;
  uploadArea : bool;
  previews : list PreviewView;
  panels : list (outcome View);
  footer : option string
}.

(** [StoryUploadModal]: [None] is the [return null] of a closed modal. *)
Definition StoryUploadModal (open : bool) (s : State) : option ModalView :=
  if negb open then None
  else
    let empty := (List.length (uploadedMedia s) =? 0)%nat in
    Some
      {| successDialog := showSuccessDialog s;
         publishIsDisabled := publishDisabled s;
         publishLabel := if isPublishing s then Spinner else PublishText;
         uploadArea := empty;
         previews := if empty then []
                     else map CompactMediaPreview (uploadedMedia s);
         panels := if empty then []
                   else map AIAnalysisPanel (uploadedMedia s);
         footer := if (0 <? approvedCount s)%nat
                   then Some (footerText (approvedCount s))
                   else None |}.

End Screen.

(* ------------------------------------------------------------------ *)
(** ** Further invariants and properties *)

Module Invariants.
Import JS Moderation Modal Panel.

Definition backtick : ascii := "`"%char.

(** The text has a code fence marker somewhere. *)
Fixpoint hasFence (s : string) : bool :=
  match s with
  | EmptyString => false
  | String _ rest => String.prefix "```" s || hasFence rest
  end.

(** The text starts with a backtick. *)
Definition startsTick (s : string) : bool :=
  match s with
  | String c _ => Ascii.eqb "`"%char c
  | EmptyString => false
  end.

Definition has_backtick (s : string) : bool :=
  existsb (fun c => Ascii.eqb c backtick) (list_ascii_of_string s).

(** The stored analysis goes with the status: an approved record has an
    analysis that says [safe], a rejected one an analysis that does
    not, a record still analysing has neither analysis nor error. *)
Definition settled_as_stored (m : UploadedMedia) : Prop :=
  match status m with
  | approved =>
      exists a, aiAnalysis m = Some a /\
                strict_eq_string (moderationStatus a) "safe" = true
  | rejected =>
      exists a, aiAnalysis m = Some a /\
                strict_eq_string (moderationStatus a) "safe" = false
  | analyzing => aiAnalysis m = None /\ errorMessage m = None
  | Modal.error => True
  end.

(** The record is as [handleFileSelect] made it from its file. *)
Definition made_from_file (m : UploadedMedia) : Prop :=
  isImage (file m) || isVideo (file m) = true /\
  type m = (if isImage (file m) then image else video).

(** Preview URLs in use are alive, by the log of the calls the
    handlers made: the URL of every record was handed out once and not
    released; the log has no more releases of a URL than it has
    creations, and none of a URL beyond [nextURL]. *)
Definition urls_alive (s : State) : Prop :=
  (forall u, (releases u s <= allocations u s)%nat /\
             (allocations u s = if (u <? nextURL s)%nat then 1 else 0)%nat) /\
  (forall m, In m (uploadedMedia s) ->
             allocations (url m) s = 1%nat /\ releases (url m) s = 0%nat).

(** The analysis has the shape [interface UploadedMedia] declares, the
    [moderationStatus] of type ['safe' | 'unsafe'] included. *)
Definition declaredShape (a : AiAnalysis) : bool :=
  wellTyped a
  && match moderationStatus a with
     | Some (Str t) => String.eqb t "safe" || String.eqb t "unsafe"
     | _ => false
     end.

(** The optional fields of a verdict. *)
Definition optionalFields : list string :=
  [ "contentType"; "tags"; "moderationReasons"; "confidence";
    "flaggedCategories" ].

Definition isFetch (e : Effect) : bool :=
  match e with
  | Fetch _ => true
  | _ => false
  end.

(** The value of a header of the request. *)
Fixpoint header (k : string) (hs : list (string * string)) : option string :=
  match hs with
  | [] => None
  | (k', v) :: rest => if String.eqb k k' then Some v else header k rest
  end.

(** The media type the request declares for its image. *)
Definition declaredMediaType (req : Request) : list string :=
  flat_map (fun msg =>
              flat_map (fun b => match b with
                                 | ImageBlock mt _ => [mt]
                                 | TextBlock _ => []
                                 end) (content msg))
           (messages (body req)).

End Invariants.

(* ------------------------------------------------------------------ *)
(** ** Properties of the modal *)

Module ModalFacts.
Import JS Moderation Modal Properties.

Lemma filter_length_zero {A} (p : A -> bool) (l : list A) :
  List.length (filter p l) = 0%nat <-> forall x, In x l -> p x = false.
Proof.
  induction l as [|a l IH]; simpl.
  - split; [intros _ x []|reflexivity].
  - destruct (p a) eqn:Ha; simpl.
    + split; [discriminate|].
      intros H. rewrite (H a (or_introl eq_refl)) in Ha. discriminate.
    + rewrite IH. split.
      * intros H x [<-|Hx]; auto.
      * intros H x Hx. apply H. now right.
Qed.

Lemma Status_eqb_eq a b : Status_eqb a b = true <-> a = b.
Proof. destruct a, b; simpl; split; congruence. Qed.

(** C5. The publish button is enabled exactly when some record is
    approved and no record is analysing. This holds in every state of
    the modal, reachable or not. *)
Theorem publish_enabled_iff (s : State) :
  publishDisabled s = false <->
  (exists m, In m (uploadedMedia s) /\ status m = approved) /\
  (forall m, In m (uploadedMedia s) -> status m <> analyzing).
Proof.
  unfold publishDisabled, approvedCount, analyzingCount.
  rewrite orb_false_iff, Nat.eqb_neq, Nat.ltb_ge, Nat.le_0_r.
  rewrite (filter_length_zero (fun m => Status_eqb (status m) analyzing)).
  split.
  - intros [Happ Han]. split.
    + destruct (filter (fun m => Status_eqb (status m) approved)
                  (uploadedMedia s)) as [|m l] eqn:E; [now elim Happ|].
      assert (Hm : In m (m :: l)) by now left.
      rewrite <- E in Hm. apply filter_In in Hm as [Hin Hst].
      exists m. split; [assumption|now apply Status_eqb_eq].
    + intros m Hm Hst. specialize (Han m Hm).
      apply Status_eqb_eq in Hst. congruence.
  - intros [[m [Hin Hst]] Han]. split.
    + intros H0.
      apply (filter_length_zero (fun m => Status_eqb (status m) approved))
        with (x := m) in H0; [|assumption].
      rewrite Hst in H0. discriminate.
    + intros m' Hm'. specialize (Han m' Hm').
      destruct (Status_eqb (status m') analyzing) eqn:E; [|reflexivity].
      apply Status_eqb_eq in E. contradiction.
Qed.

(** *** At most one record *)

Lemma revoke_all_media (l : list UploadedMedia) (s : State) :
  uploadedMedia (fold_left (fun acc media => revoke (url media) acc) l s)
  = uploadedMedia s
  /\ nextURL (fold_left (fun acc media => revoke (url media) acc) l s)
     = nextURL s.
Proof.
  revert s. induction l as [|a l IH]; intros s; simpl; [now split|].
  destruct (IH (revoke (url a) s)) as [H1 H2]. now rewrite H1, H2.
Qed.

Lemma handleFileSelect_accepted files newId s f :
  firstFile files = Some f ->
  isImage f || isVideo f = true ->
  uploadedMedia (handleFileSelect files newId s)
  = [newMedia newId f (nextURL s)]
  /\ nextURL (handleFileSelect files newId s) = S (nextURL s).
Proof.
  intros Hf Hacc. unfold handleFileSelect. rewrite Hf.
  rewrite <- negb_orb, Hacc. simpl.
  destruct (revoke_all_media (uploadedMedia s) s) as [_ Hn].
  now rewrite Hn.
Qed.

Lemma handleFileSelect_refused files newId s :
  match firstFile files with
  | Some f => isImage f || isVideo f = false
  | None => True
  end ->
  handleFileSelect files newId s = s.
Proof.
  unfold handleFileSelect. destruct (firstFile files) as [f|]; [|reflexivity].
  intros H. now rewrite <- negb_orb, H.
Qed.

Lemma tidy_step s e : tidy s -> tidy (step s e).
Proof.
  intros [Hlen Hurl]. destruct e as [files newId|newId outcome|i| | | |]; simpl.
  - destruct (firstFile files) as [f|] eqn:Hf.
    + destruct (isImage f || isVideo f) eqn:Hacc.
      * destruct (handleFileSelect_accepted files newId s f Hf Hacc) as [Hm Hn].
        unfold tidy. rewrite Hm, Hn. split; [simpl; lia|].
        intros m [<-|[]]. simpl. lia.
      * rewrite handleFileSelect_refused; [now split|]. now rewrite Hf.
    + rewrite handleFileSelect_refused; [now split|]. now rewrite Hf.
  - unfold tidy, analysisSettled; simpl. rewrite length_map. split; [assumption|].
    intros m Hm. apply in_map_iff in Hm as [m0 [<- Hm0]].
    specialize (Hurl m0 Hm0).
    destruct (negb (id m0 =? newId)); [assumption|].
    now destruct outcome.
  - unfold tidy, removeMedia.
    assert (Hn : nextURL
                   match find (fun m => (id m =? i)%string) (uploadedMedia s) with
                   | Some media => revoke (url media) s
                   | None => s
                   end = nextURL s)
      by now destruct (find _ _).
    simpl. rewrite Hn. split.
    + eapply Nat.le_trans; [apply filter_length_le|assumption].
    + intros m Hm. apply filter_In in Hm as [Hm _]. auto.
  - unfold handlePublish. destruct (0 <? approvedCount s)%nat; now split.
  - now split.
  - split; simpl; [lia|intros m []].
  - now split.
Qed.

Lemma reachable_tidy s : reachable s -> tidy s.
Proof.
  induction 1 as [|s e _ IH]; [|now apply tidy_step].
  split; simpl; [lia|intros m []].
Qed.

(** C6. In every reachable state there is at most one record. Selecting
    a file whose MIME type starts with [image/] or [video/] leaves
    exactly one record, the new one: it is analysing, refers to the
    selected file, and is none of the records there were before.
    Selecting a file of another type changes nothing. *)
Theorem one_record_at_a_time (s : State) (files : option (list File))
    (f : File) (newId : string) :
  reachable s ->
  firstFile files = Some f ->
  let s' := handleFileSelect files newId s in
  (List.length (uploadedMedia s) <= 1)%nat /\
  (List.length (uploadedMedia s') <= 1)%nat /\
  (if isImage f || isVideo f
   then exists m, uploadedMedia s' = [m] /\ status m = analyzing /\
                  file m = f /\ ~ In m (uploadedMedia s)
   else s' = s).
Proof.
  intros Hr Hf s'.
  pose proof (reachable_tidy s Hr) as [Hlen Hurl].
  pose proof (reachable_tidy s' (reachable_step s (FileSelected files newId) Hr))
    as [Hlen' _].
  repeat split; [assumption|assumption|].
  destruct (isImage f || isVideo f) eqn:Hacc.
  - destruct (handleFileSelect_accepted files newId s f Hf Hacc) as [Hm _].
    exists (newMedia newId f (nextURL s)). repeat split; [assumption|].
    intros Hin. apply Hurl in Hin. simpl in Hin. lia.
  - apply handleFileSelect_refused. now rewrite Hf.
Qed.

Lemma one_record_at_a_time_witness :
  let s' := handleFileSelect (Some [Samples.photo]) "k3x9q" initial in
  (List.length (uploadedMedia initial) <= 1)%nat /\
  (List.length (uploadedMedia s') <= 1)%nat /\
  (exists m, uploadedMedia s' = [m] /\ status m = analyzing /\
             file m = Samples.photo /\ ~ In m (uploadedMedia initial)).
Proof.
  exact (one_record_at_a_time initial (Some [Samples.photo]) Samples.photo
           "k3x9q" reachable_initial eq_refl).
Defined.

Example remove_then_select :
  let s := run initial Samples.removeSession in
  uploadedMedia s = [newMedia "p7m2c" Samples.clip 1] /\
  urlCalls s = [createObjectURL 0; revokeObjectURL 0; createObjectURL 1].
Proof. now split. Qed.

(** *** Late answers *)

Lemma setUploadedMedia_same s : setUploadedMedia (uploadedMedia s) s = s.
Proof. now destruct s. Qed.

Lemma analysisSettled_absent i outcome s :
  absent i s -> analysisSettled i outcome s = s.
Proof.
  intros Habs. unfold analysisSettled.
  match goal with
  | |- setUploadedMedia (map ?f ?l) s = s =>
      assert (E : map f l = l)
  end.
  { rewrite <- (map_id (uploadedMedia s)) at 2.
    apply map_ext_in. intros m Hm.
    destruct (String.eqb_spec (id m) i) as [E|E]; [|reflexivity].
    now elim (Habs m Hm). }
  rewrite E. apply setUploadedMedia_same.
Qed.

Lemma removeMedia_absent i s : absent i (removeMedia i s).
Proof.
  intros m Hm. unfold removeMedia in Hm. simpl in Hm.
  apply filter_In in Hm as [_ Hm].
  destruct (String.eqb_spec (id m) i); [discriminate|assumption].
Qed.

Lemma absent_step i s e : draws i e = false -> absent i s -> absent i (step s e).
Proof.
  intros Hd Habs.
  destruct e as [files newId|newId outcome|j| | | |]; simpl in *.
  - destruct (firstFile files) as [f|] eqn:Hf.
    + destruct (isImage f || isVideo f) eqn:Hacc.
      * destruct (handleFileSelect_accepted files newId s f Hf Hacc) as [Hm _].
        intros m Hin. rewrite Hm in Hin. destruct Hin as [<-|[]]. simpl.
        now apply String.eqb_neq.
      * rewrite handleFileSelect_refused; [assumption|]. now rewrite Hf.
    + rewrite handleFileSelect_refused; [assumption|]. now rewrite Hf.
  - intros m Hm. unfold analysisSettled in Hm. simpl in Hm.
    apply in_map_iff in Hm as [m0 [<- Hm0]]. specialize (Habs m0 Hm0).
    destruct (negb (id m0 =? newId)); [assumption|].
    now destruct outcome.
  - intros m Hm. unfold removeMedia in Hm. simpl in Hm.
    apply filter_In in Hm as [Hm _]. auto.
  - unfold handlePublish. now destruct (0 <? approvedCount s)%nat.
  - assumption.
  - intros m [].
  - assumption.
Qed.

Lemma absent_run i events : forall s,
  forallb (fun e => negb (draws i e)) events = true ->
  absent i s -> absent i (run s events).
Proof.
  induction events as [|e events IH]; intros s Hd Habs; [assumption|].
  simpl in Hd. apply andb_true_iff in Hd as [He Hd].
  apply negb_true_iff in He. simpl. apply IH; [assumption|].
  now apply absent_step.
Qed.

Lemma analysisSettled_others i outcome s m :
  In m (uploadedMedia s) -> id m <> i ->
  In m (uploadedMedia (analysisSettled i outcome s)).
Proof.
  intros Hm Hid. unfold analysisSettled. simpl. apply in_map_iff.
  exists m. split; [|assumption].
  apply String.eqb_neq in Hid. now rewrite Hid.
Qed.

(** C7, as the code has it. A record is removed while its moderation
    call is in flight. As long as no later selection draws the
    identifier of the removed record again, the answer of that call, a
    verdict or a failure, changes nothing when it arrives: the state is
    the one before it, and no record with the removed identifier is
    back. In any state, an answer leaves the records with another
    identifier as they are and adds none. *)
Theorem late_answer_is_dropped (s : State) (i : string) (later : list Event)
    (outcome : result AiAnalysis) :
  forallb (fun e => negb (draws i e)) later = true ->
  let s1 := run (removeMedia i s) later in
  let s2 := analysisSettled i outcome s1 in
  s2 = s1 /\
  absent i s2 /\
  (forall s0 m, In m (uploadedMedia s0) -> id m <> i ->
                In m (uploadedMedia (analysisSettled i outcome s0))) /\
  (forall s0, List.length (uploadedMedia (analysisSettled i outcome s0))
              = List.length (uploadedMedia s0)).
Proof.
  intros Hfresh s1 s2.
  assert (Habs : absent i s1)
    by (apply absent_run; [assumption|apply removeMedia_absent]).
  assert (E : s2 = s1) by now apply analysisSettled_absent.
  repeat split.
  - assumption.
  - now rewrite E.
  - intros s0 m. apply analysisSettled_others.
  - intros s0. unfold analysisSettled. simpl. apply length_map.
Qed.

Lemma late_answer_is_dropped_witness :
  let s := handleFileSelect (Some [Samples.photo]) "k3x9q" initial in
  let s1 := run (removeMedia "k3x9q" s)
              [FileSelected (Some [Samples.clip]) "p7m2c"] in
  analysisSettled "k3x9q" (Ok Samples.safeAnalysis) s1 = s1.
Proof.
  exact (proj1 (late_answer_is_dropped
                  (handleFileSelect (Some [Samples.photo]) "k3x9q" initial)
                  "k3x9q" [FileSelected (Some [Samples.clip]) "p7m2c"]
                  (Ok Samples.safeAnalysis) eq_refl)).
Defined.

(** C7, as specified, fails: records are told apart by identifier
    only. When the clip selected after the removal gets the identifier
    of the removed photo, the late answer for the photo lands on the
    record of the clip, which is approved with the analysis of the
    photo. *)
Lemma late_answer_hits_same_id :
  uploadedMedia sameIdAgain = [newMedia "" Samples.clip 1] /\
  uploadedMedia (analysisSettled "" (Ok Samples.safeAnalysis) sameIdAgain)
  = [withAnalysis Samples.safeAnalysis (newMedia "" Samples.clip 1)] /\
  ~ lateAnswerIgnored (newMedia "" Samples.photo 0) (Ok Samples.safeAnalysis)
      sameIdAgain.
Proof.
  split; [reflexivity|]. split; [reflexivity|].
  intros [_ H]. specialize (H (newMedia "" Samples.clip 1) (or_introl eq_refl)).
  destruct H as [H|[]]. discriminate H.
Qed.

(** *** Object URLs *)

Lemma revoke_all_calls (l : list UploadedMedia) (s : State) :
  urlCalls (fold_left (fun acc media => revoke (url media) acc) l s)
  = (urlCalls s ++ map (fun m => revokeObjectURL (url m)) l)%list.
Proof.
  revert s. induction l as [|a l IH]; intros s; simpl.
  - now rewrite app_nil_r.
  - rewrite IH. simpl. now rewrite <- app_assoc.
Qed.

Lemma handleFileSelect_calls files newId s f :
  firstFile files = Some f ->
  isImage f || isVideo f = true ->
  urlCalls (handleFileSelect files newId s)
  = (urlCalls s ++ map (fun m => revokeObjectURL (url m)) (uploadedMedia s)
       ++ [createObjectURL (nextURL s)])%list.
Proof.
  intros Hf Hacc. unfold handleFileSelect. rewrite Hf.
  rewrite <- negb_orb, Hacc. simpl.
  rewrite revoke_all_calls.
  destruct (revoke_all_media (uploadedMedia s) s) as [_ Hn].
  now rewrite Hn, <- app_assoc.
Qed.

Lemma held_analysisSettled u i outcome s :
  held u (analysisSettled i outcome s) = held u s.
Proof.
  unfold held, analysisSettled. simpl.
  induction (uploadedMedia s) as [|m l IH]; [reflexivity|]. simpl.
  rewrite IH. f_equal.
  destruct (negb (id m =? i)); [reflexivity|now destruct outcome].
Qed.

Ltac count_calls :=
  unfold allocations, releases, held in *; simpl in *;
  repeat rewrite ?filter_app, ?length_app in *; simpl in *.

Ltac split_tests :=
  repeat match goal with
         | |- context [Nat.eqb ?a ?b] => destruct (Nat.eqb_spec a b)
         | H : context [Nat.eqb ?a ?b] |- _ => destruct (Nat.eqb_spec a b)
         | |- context [Nat.ltb ?a ?b] => destruct (Nat.ltb_spec a b)
         | H : context [Nat.ltb ?a ?b] |- _ => destruct (Nat.ltb_spec a b)
         end; simpl in *.

Lemma balanced_step s e :
  isSuccessClose e = false -> tidy s -> balanced s -> balanced (step s e).
Proof.
  intros Hclose [Hlen Hurl] Hbal.
  destruct e as [files newId|newId outcome|i| | | |]; simpl in *;
    try discriminate.
  - destruct (firstFile files) as [f|] eqn:Hf;
      [|rewrite handleFileSelect_refused; [assumption|now rewrite Hf]].
    destruct (isImage f || isVideo f) eqn:Hacc;
      [|rewrite handleFileSelect_refused; [assumption|now rewrite Hf]].
    destruct (handleFileSelect_accepted files newId s f Hf Hacc) as [Hm Hn].
    pose proof (handleFileSelect_calls files newId s f Hf Hacc) as Hc.
    intros u. destruct (Hbal u) as [Ha Hr].
    unfold allocations, releases, held in Ha, Hr.
    unfold allocations, releases, held. rewrite Hm, Hn, Hc.
    destruct (uploadedMedia s) as [|m [|m' l]] eqn:Hl;
      [| |simpl in Hlen; lia].
    + count_calls. split_tests; lia.
    + assert (Hlt : (url m < nextURL s)%nat) by (apply Hurl; now left).
      count_calls. split_tests; lia.
  - intros u. destruct (Hbal u) as [Ha Hr].
    split; [exact Ha|]. now rewrite held_analysisSettled.
  - intros u. destruct (Hbal u) as [Ha Hr]. unfold removeMedia.
    destruct (uploadedMedia s) as [|m [|m' l]] eqn:Hl;
      [| |simpl in Hlen; lia].
    + simpl. count_calls. rewrite Hl in *. simpl in *. now split.
    + assert (Hlt : (url m < nextURL s)%nat) by (apply Hurl; now left).
      simpl. destruct (String.eqb (id m) i) eqn:E; simpl.
      * count_calls. rewrite Hl in *. simpl in *. split_tests; lia.
      * count_calls. rewrite Hl in *. simpl in *. now split.
  - unfold handlePublish. now destruct (0 <? approvedCount s)%nat.
  - assumption.
  - assumption.
Qed.

Lemma balanced_initial : balanced initial.
Proof. intros u. now split. Qed.

Lemma tidy_run events : forall s, tidy s -> tidy (run s events).
Proof.
  induction events as [|e events IH]; intros s Hs; [assumption|].
  simpl. apply IH. now apply tidy_step.
Qed.

(** On every path that does not go through the [Done] button of the
    success dialog, replacement and removal included, each object URL
    handed out is released exactly once when its record goes. *)
Lemma balanced_run events : forall s,
  forallb (fun e => negb (isSuccessClose e)) events = true ->
  tidy s -> balanced s -> balanced (run s events).
Proof.
  induction events as [|e events IH]; intros s Hev Ht Hb; [assumption|].
  simpl in Hev. apply andb_true_iff in Hev as [He Hev].
  apply negb_true_iff in He. simpl.
  apply IH; [assumption|now apply tidy_step|now apply balanced_step].
Qed.

(** C2. The property fails on the close after a successful publish:
    [handleSuccessClose] empties the records without releasing their
    URLs. After a photo is selected, approved, published and the
    confirmation closed, the modal holds no record and has asked to be
    closed, yet object URL 0, handed out once, was never released. *)
Theorem success_close_leaks_preview_url :
  let s := run initial Samples.publishSession in
  uploadedMedia s = [] /\
  onOpenChange s = [false] /\
  allocations 0 s = 1%nat /\
  releases 0 s = 0%nat /\
  held 0 s = false /\
  ~ balanced s.
Proof.
  repeat split.
  intros H. destruct (H 0%nat) as [_ Hr]. discriminate Hr.
Qed.

End ModalFacts.

(* ------------------------------------------------------------------ *)
(** ** Properties of the moderation client *)

Module ModerationFacts.
Import JS Moderation Modal Properties.

Lemma append_assoc (a b c : string) : (a ++ b) ++ c = a ++ (b ++ c).
Proof. induction a as [|x a IH]; simpl; [reflexivity|now rewrite IH]. Qed.

Lemma append_empty_r (a : string) : a ++ "" = a.
Proof. induction a as [|x a IH]; simpl; [reflexivity|now rewrite IH]. Qed.



(** What a thrown analysis does to the record it belongs to. *)
Lemma settled_with_error newId e s m :
  In m (uploadedMedia s) -> id m = newId ->
  In (withError e m) (uploadedMedia (analysisSettled newId (Throw e) s)).
Proof.
  intros Hm Hid. unfold analysisSettled. simpl. apply in_map_iff.
  exists m. split; [|assumption].
  apply String.eqb_eq in Hid. now rewrite Hid.
Qed.

Lemma settled_with_analysis newId a s m :
  In m (uploadedMedia s) -> id m = newId ->
  In (withAnalysis a m) (uploadedMedia (analysisSettled newId (Ok a) s)).
Proof.
  intros Hm Hid. unfold analysisSettled. simpl. apply in_map_iff.
  exists m. split; [|assumption].
  apply String.eqb_eq in Hid. now rewrite Hid.
Qed.

(** The run of [analyzeMediaWithClaude] without a credential. *)
Lemma analyze_without_key env w f :
  falsy_key (VITE_ANTHROPIC_API_KEY env) = true ->
  analyzeMediaWithClaude env w f
  = ([encodingStep f],
     match encodingOf w f with
     | Ok _ => Throw (Error missingKeyMessage)
     | Throw e => Throw e
     end).
Proof.
  intros Hk. unfold analyzeMediaWithClaude, encodingStep, encodingOf.
  unfold extractVideoFrame, fileToBase64, perform, bind.
  destruct (startsWith (file_type f) "video/").
  - destruct (extractVideoFrame_result w f); [|reflexivity].
    now rewrite Hk.
  - destruct (fileToBase64_result w f); [|reflexivity].
    now rewrite Hk.
Qed.

(** C3, as the code has it. Without a credential (unset or empty) the
    pipeline still runs its first step, the frame extraction of a video
    or the encoding of an image, and nothing else: no request is sent.
    It then throws the configuration error, or the error of the encoding
    step when that step failed. Either way the record of the call ends
    with status [error]. *)
Theorem missing_key_sends_no_request (env : Env) (w : World) (f : File)
    (newId : string) (s : State) :
  falsy_key (VITE_ANTHROPIC_API_KEY env) = true ->
  let effects := fst (analyzeMediaWithClaude env w f) in
  let outcome := snd (analyzeMediaWithClaude env w f) in
  effects = [encodingStep f] /\
  (forall req, ~ In (Fetch req) effects) /\
  outcome = match encodingOf w f with
            | Ok _ => Throw (Error missingKeyMessage)
            | Throw e => Throw e
            end /\
  (forall m, In m (uploadedMedia s) -> id m = newId ->
     exists m', In m' (uploadedMedia (analysisSettled newId outcome s)) /\
                id m' = newId /\ url m' = url m /\
                Modal.status m' = error).
Proof.
  intros Hk effects outcome. subst effects outcome.
  rewrite (analyze_without_key env w f Hk). simpl.
  repeat split.
  - intros req [H|[]]. unfold encodingStep in H.
    destruct (startsWith (file_type f) "video/"); discriminate.
  - intros m Hm Hid.
    destruct (encodingOf w f) as [data|e].
    + exists (withError (Error missingKeyMessage) m).
      repeat split; [|assumption]. now apply settled_with_error.
    + exists (withError e m).
      repeat split; [|assumption]. now apply settled_with_error.
Qed.

Lemma missing_key_sends_no_request_witness :
  fst (analyzeMediaWithClaude Samples.noKey (Samples.answering Samples.okReply)
         Samples.clip)
  = [ExtractVideoFrame Samples.clip].
Proof.
  exact (proj1 (missing_key_sends_no_request Samples.noKey
                  (Samples.answering Samples.okReply) Samples.clip "k3x9q"
                  initial eq_refl)).
Defined.

(** C3, as specified, fails: without a credential, and before
    the configuration error, the photo is read and encoded. *)
Lemma missing_key_encodes_first :
  VITE_ANTHROPIC_API_KEY Samples.noKey = None /\
  fst (analyzeMediaWithClaude Samples.noKey (Samples.answering Samples.okReply)
         Samples.photo)
  = [FileToBase64 Samples.photo] /\
  ~ failsBeforeAnyStep Samples.noKey (Samples.answering Samples.okReply)
      Samples.photo.
Proof.
  repeat split. intros H. discriminate H.
Qed.

(** The run of [analyzeMediaWithClaude] up to the response. *)
Lemma analyze_until_response env w f data r :
  falsy_key (VITE_ANTHROPIC_API_KEY env) = false ->
  encodingOf w f = Ok data ->
  fetch_result w (requestOf env f data) = Ok r ->
  analyzeMediaWithClaude env w f
  = bind ([encodingStep f; Fetch (requestOf env f data)], Ok r)
      (fun response =>
         if negb (ok response) then
           bind (perform ResponseText (text response)) (fun err =>
             if (Moderation.status response =? 404)%nat
             then throw (Error (notFoundMessage (configuredModel env) err))
             else throw (Error (apiErrorMessage (Moderation.status response) err)))
         else
           bind (perform ResponseJson (json response)) (fun data =>
             bind (lift (JSON_parse w
                           (trim (stripFences (join (map block_text_or_empty data))))))
               (fun parsed => lift (verdict parsed)))).
Proof.
  intros Hk He Hf.
  unfold analyzeMediaWithClaude, encodingStep, encodingOf, requestOf,
    configuredModel in *.
  unfold extractVideoFrame, fileToBase64, fetch, perform.
  destruct (startsWith (file_type f) "video/");
    rewrite He; unfold bind at 1; rewrite Hk, Hf; unfold bind at 1;
    simpl;
    set (k := if negb (ok r) then _ else _); now destruct k.
Qed.



Example verdict_of_unsafe_reply :
  verdict Samples.unsafeVerdict = Ok Samples.unsafeAnalysis.
Proof. reflexivity. Qed.

Example photo_approved :
  map Modal.status
    (uploadedMedia
       (selectAndAnalyze Samples.withKey (Samples.answering Samples.okReply)
          Samples.photo "k3x9q" initial))
  = [approved].
Proof. reflexivity. Qed.

Example photo_not_found :
  map Modal.status
    (uploadedMedia
       (selectAndAnalyze Samples.withKey (Samples.answering Samples.notFound)
          Samples.photo "k3x9q" initial))
  = [error].
Proof. reflexivity. Qed.

(** The run of [analyzeMediaWithClaude] on a reply that parses: its
    result is the verdict built from the parsed object. *)
Lemma analyze_parsed env w f data r blocks parsed :
  falsy_key (VITE_ANTHROPIC_API_KEY env) = false ->
  encodingOf w f = Ok data ->
  fetch_result w (requestOf env f data) = Ok r ->
  ok r = true ->
  json r = Ok blocks ->
  JSON_parse w (trim (stripFences (join (map block_text_or_empty blocks))))
  = Ok parsed ->
  analyzeMediaWithClaude env w f
  = ([encodingStep f; Fetch (requestOf env f data); ResponseJson],
     verdict parsed).
Proof.
  intros Hk He Hf Hok Hj Hp.
  rewrite (analyze_until_response env w f data r Hk He Hf).
  unfold bind, perform, lift. now rewrite Hok, Hj, Hp.
Qed.

Lemma verdict_of_value parsed :
  parsed <> Null ->
  verdict parsed
  = Ok {| contentType := [coalesce (field parsed "contentType") (Str "Unknown")];
          tags := coalesce (field parsed "tags") (Arr []);
          moderationStatus := field parsed "moderationStatus";
          moderationReasons := coalesce (field parsed "moderationReasons") (Arr []);
          confidence := coalesce (field parsed "confidence") (Num 0.9);
          flaggedCategories := coalesce (field parsed "flaggedCategories") noFlags |}.
Proof.
  intros Hn. destruct parsed; try reflexivity. now elim Hn.
Qed.

Lemma coalesce_default x d : x = None \/ x = Some Null -> coalesce x d = d.
Proof. now intros [-> | ->]. Qed.

Lemma coalesce_kept v d : v <> Null -> coalesce (Some v) d = v.
Proof. intros Hv. destruct v; try reflexivity. now elim Hv. Qed.

(** C4, as the code has it. From a parsed verdict other than [null] the
    stored analysis takes each optional field that is left out, or that
    holds [null], from the defaults: [tags] and [moderationReasons] the
    empty list, [confidence] 0.9, [flaggedCategories] the six flags all
    false, [contentType] the text Unknown. A field that is there with
    another value is stored as it is. [contentType] is stored as a list
    of one element, the text of the field or of the default. *)
Theorem verdict_defaults (parsed : value) :
  parsed <> Null ->
  exists a, verdict parsed = Ok a /\
    (forall k, omitted parsed k \/ present parsed k Null ->
       (k = "tags" -> tags a = Arr []) /\
       (k = "moderationReasons" -> moderationReasons a = Arr []) /\
       (k = "confidence" -> confidence a = Num 0.9) /\
       (k = "flaggedCategories" -> flaggedCategories a = noFlags) /\
       (k = "contentType" -> contentType a = [Str "Unknown"])) /\
    (forall k v, present parsed k v -> v <> Null ->
       (k = "tags" -> tags a = v) /\
       (k = "moderationReasons" -> moderationReasons a = v) /\
       (k = "confidence" -> confidence a = v) /\
       (k = "flaggedCategories" -> flaggedCategories a = v) /\
       (k = "contentType" -> contentType a = [v])) /\
    moderationStatus a = field parsed "moderationStatus".
Proof.
  intros Hn. eexists. split; [now apply verdict_of_value|]. simpl.
  split; [|split].
  - intros k Hk. repeat split; intros ->; try f_equal;
      now apply coalesce_default.
  - intros k v Hp Hv. unfold present in Hp.
    repeat split; intros ->; rewrite Hp; try f_equal; now apply coalesce_kept.
  - reflexivity.
Qed.

Lemma verdict_defaults_witness :
  exists a, verdict Samples.bareSafe = Ok a /\
    tags a = Arr [] /\
    moderationReasons a = Arr [] /\
    confidence a = Num 0.9 /\
    flaggedCategories a = noFlags /\
    contentType a = [Str "Unknown"] /\
    moderationStatus a = Some (Str "safe").
Proof.
  destruct (verdict_defaults Samples.bareSafe ltac:(discriminate))
    as [a [Hv [Hd [_ Hs]]]].
  exists a. split; [exact Hv|].
  split; [exact (proj1 (Hd "tags" (or_introl eq_refl)) eq_refl)|].
  split; [exact (proj1 (proj2 (Hd "moderationReasons" (or_introl eq_refl)))
                   eq_refl)|].
  split; [exact (proj1 (proj2 (proj2 (Hd "confidence" (or_introl eq_refl))))
                   eq_refl)|].
  split; [exact (proj1 (proj2 (proj2 (proj2
                   (Hd "flaggedCategories" (or_introl eq_refl))))) eq_refl)|].
  split; [exact (proj2 (proj2 (proj2 (proj2
                   (Hd "contentType" (or_introl eq_refl))))) eq_refl)|].
  exact Hs.
Defined.

(** C4, as specified, fails: a [tags] field that is there and
    holds [null] is not kept, the empty list is stored instead. *)
Lemma null_field_is_replaced :
  present nullTags "tags" Null /\
  exists a, verdict nullTags = Ok a /\ tags a = Arr [] /\
            ~ presentFieldsKept nullTags a.
Proof.
  split; [reflexivity|]. eexists. split; [reflexivity|].
  split; [reflexivity|].
  intros [H _]. specialize (H Null eq_refl). discriminate H.
Qed.

(** C8, as the code has it. Whatever the reply parses to, the record
    of the call ends approved exactly when the [moderationStatus] field
    is the string [safe]. In every other case, another string, a value
    of another type, [null] in the field or no field at all, it ends
    rejected, except when the parsed value itself is [null]: reading
    the field then throws and the record ends in [error]. It is never
    approved without [safe]. *)
Theorem approved_iff_safe (parsed : value) (newId : string) (s : State)
    (m : UploadedMedia) :
  In m (uploadedMedia s) ->
  id m = newId ->
  exists m',
    In m' (uploadedMedia (analysisSettled newId (verdict parsed) s)) /\
    id m' = newId /\ url m' = url m /\
    (Modal.status m' = approved <->
     field parsed "moderationStatus" = Some (Str "safe")) /\
    (field parsed "moderationStatus" <> Some (Str "safe") ->
     Modal.status m' = match parsed with
                       | Null => Modal.error
                       | _ => rejected
                       end) /\
    (parsed <> Null ->
     exists a, verdict parsed = Ok a /\ aiAnalysis m' = Some a).
Proof.
  intros Hm Hid.
  assert (Hcase : parsed = Null \/ parsed <> Null)
    by (destruct parsed; [now left|right; discriminate..]).
  destruct Hcase as [-> | Hn].
  - exists (withError TypeError m).
    split; [now apply settled_with_error|]. simpl.
    repeat split; try assumption; try discriminate.
    intros H. now elim H.
  - rewrite (verdict_of_value parsed Hn).
    eexists. split; [apply settled_with_analysis; eassumption|].
    simpl. repeat split; try assumption.
    + destruct (field parsed "moderationStatus") as [[| | |t| |]|];
        simpl; try discriminate.
      destruct (String.eqb_spec t "safe"); [now subst|discriminate].
    + intros ->. reflexivity.
    + intros Hneq.
      assert (E : (if strict_eq_string (field parsed "moderationStatus") "safe"
                   then approved else rejected) = rejected).
      { destruct (field parsed "moderationStatus") as [[| | |t| |]|];
          simpl; try reflexivity.
        destruct (String.eqb_spec t "safe"); [subst; now elim Hneq|reflexivity]. }
      rewrite E. destruct parsed; [now elim Hn|reflexivity..].
    + intros _. eexists. split; reflexivity.
Qed.

Lemma approved_iff_safe_witness :
  exists m',
    In m' (uploadedMedia
             (analysisSettled "k3x9q" (verdict Samples.bareSafe)
                (handleFileSelect (Some [Samples.photo]) "k3x9q" initial))) /\
    Modal.status m' = approved.
Proof.
  destruct (approved_iff_safe Samples.bareSafe "k3x9q"
              (handleFileSelect (Some [Samples.photo]) "k3x9q" initial)
              (newMedia "k3x9q" Samples.photo 0)
              (or_introl eq_refl) eq_refl)
    as [m' [Hin [_ [_ [Hiff _]]]]].
  exists m'. split; [exact Hin|].
  exact (proj2 Hiff eq_refl).
Defined.

(** C8, as specified, fails: the reply [null] is valid JSON without a
    [moderationStatus], yet the record does not end rejected. The first
    property read throws and the record ends in [error]. *)
Lemma null_verdict_is_not_rejected :
  field Null "moderationStatus" <> Some (Str "safe") /\
  map Modal.status
    (uploadedMedia
       (analysisSettled "k3x9q" (verdict Null)
          (handleFileSelect (Some [Samples.photo]) "k3x9q" initial)))
  = [Modal.error] /\
  ~ rejectedUnlessSafe Null "k3x9q"
      (handleFileSelect (Some [Samples.photo]) "k3x9q" initial).
Proof.
  split; [discriminate|]. split; [reflexivity|].
  intros H.
  destruct (H (withError TypeError (newMedia "k3x9q" Samples.photo 0))
              (or_introl eq_refl) eq_refl) as [_ Hr].
  specialize (Hr ltac:(discriminate)). discriminate Hr.
Qed.

End ModerationFacts.

(* ------------------------------------------------------------------ *)
(** ** Properties of rounding and of the text of numbers *)

Module FloatFacts.
Import JS.
Local Open Scope Z_scope.

Lemma half_up_bounds (sm k : Z) :
  0 < k ->
  let n := (2 * sm + 2 ^ k) / 2 ^ (k + 1) in
  (2 * n - 1) * 2 ^ k <= 2 * sm < (2 * n + 1) * 2 ^ k.
Proof.
  intros Hk n.
  assert (HD : 0 < 2 ^ k) by (apply Z.pow_pos_nonneg; lia).
  assert (E : 2 ^ (k + 1) = 2 * 2 ^ k) by (rewrite Z.pow_add_r; lia).
  pose proof (Z.div_mod (2 * sm + 2 ^ k) (2 ^ (k + 1)) ltac:(lia)) as Hdm.
  pose proof (Z.mod_pos_bound (2 * sm + 2 ^ k) (2 ^ (k + 1)) ltac:(lia)) as Hb.
  fold n in Hdm. rewrite E in *. nia.
Qed.

Lemma iter_xO_value (p k : positive) :
  Z.pos (Pos.iter xO p k) = Z.pos p * 2 ^ Z.pos k.
Proof.
  induction k as [|k IH] using Pos.peano_ind.
  - simpl. lia.
  - rewrite Pos.iter_succ, Pos2Z.inj_succ, Z.pow_succ_r by lia.
    rewrite Pos2Z.inj_xO, IH. lia.
Qed.

Lemma iter_xO_digits (p k : positive) :
  digits2_pos (Pos.iter xO p k) = (digits2_pos p + k)%positive.
Proof.
  induction k as [|k IH] using Pos.peano_ind.
  - simpl. lia.
  - rewrite Pos.iter_succ. simpl. rewrite IH. lia.
Qed.

Lemma digits2_bounds (p : positive) :
  2 ^ (Z.pos (digits2_pos p) - 1) <= Z.pos p < 2 ^ Z.pos (digits2_pos p).
Proof.
  induction p as [p IH|p IH|]; simpl digits2_pos.
  - rewrite Pos2Z.inj_succ, Z.pow_succ_r by lia.
    replace (Z.succ (Z.pos (digits2_pos p)) - 1) with (Z.succ (Z.pos (digits2_pos p) - 1)) by lia.
    rewrite Z.pow_succ_r by lia. lia.
  - rewrite Pos2Z.inj_succ, Z.pow_succ_r by lia.
    replace (Z.succ (Z.pos (digits2_pos p)) - 1) with (Z.succ (Z.pos (digits2_pos p) - 1)) by lia.
    rewrite Z.pow_succ_r by lia. lia.
  - simpl. lia.
Qed.

Lemma binary_round_small (s : bool) (p : positive) :
  Z.pos (digits2_pos p) <= 53 ->
  exists mz ez, binary_round prec emax s p 0 = S754_finite s mz ez /\
                ez <= 0 /\ Z.pos mz = Z.pos p * 2 ^ (- ez).
Proof.
  intros Hd. unfold binary_round.
  set (d := Z.pos (digits2_pos p)) in *.
  assert (Hfexp : fexp prec emax (d + 0) = d - 53).
  { unfold fexp, emin, prec, emax. lia. }
  rewrite Hfexp. unfold shl_align.
  assert (Haux : forall mz ez, Z.pos (digits2_pos mz) = 53 -> -52 <= ez <= 0 ->
            binary_round_aux prec emax s (Z.pos mz) ez loc_Exact = S754_finite s mz ez).
  { intros mz ez Hmz Hez. unfold binary_round_aux, shr_fexp.
    cbn [Zdigits2 shr_record_of_loc]. rewrite Hmz.
    assert (Hf : fexp prec emax (53 + ez) - ez = 0)
      by (unfold fexp, emin, prec, emax; lia).
    rewrite Hf. cbn [shr shr_m loc_of_shr_record round_nearest_even Zdigits2 shr_record_of_loc].
    rewrite Hmz, Hf. cbn [shr shr_m].
    destruct (Z.leb_spec ez (emax - prec)) as [_|H]; [reflexivity|].
    unfold emax, prec in H. lia. }
  destruct (d - 53 - 0) as [|q|q] eqn:E.
  - exists p, 0. split; [apply Haux; lia|]. split; [lia|]. simpl. lia.
  - lia.
  - exists (Pos.iter xO p q), (d - 53). split.
    + apply Haux; [|lia]. rewrite iter_xO_digits. fold d. lia.
    + split; [lia|]. rewrite iter_xO_value. f_equal. f_equal. lia.
Qed.

Lemma small_digits (p : positive) : Z.pos p < 2 ^ 53 -> Z.pos (digits2_pos p) <= 53.
Proof.
  intros Hp. pose proof (digits2_bounds p) as [Hlo _].
  destruct (Z.le_gt_cases (Z.pos (digits2_pos p)) 53) as [H|H]; [assumption|].
  assert (2 ^ 53 <= 2 ^ (Z.pos (digits2_pos p) - 1))
    by (apply Z.pow_le_mono_r; lia).
  lia.
Qed.

Lemma of_uint63_small (p : positive) :
  Z.pos p < 2 ^ 53 ->
  exists mz ez, Prim2SF (PrimFloat.of_uint63 (Uint63.of_Z (Z.pos p)))
                = S754_finite false mz ez /\
                ez <= 0 /\ Z.pos mz = Z.pos p * 2 ^ (- ez).
Proof.
  intros Hp. rewrite of_uint63_spec, Uint63.of_Z_spec.
  rewrite Z.mod_small.
  - apply binary_round_small. now apply small_digits.
  - split; [lia|]. eapply Z.lt_trans; [exact Hp|]. reflexivity.
Qed.

Lemma integral_value_finite (x : float) s mz ez (p : positive) :
  Prim2SF x = S754_finite s mz ez ->
  ez <= 0 -> Z.pos mz = Z.pos p * 2 ^ (- ez) ->
  integral_value x = Some (if s then Z.neg p else Z.pos p).
Proof.
  intros Hx He Hm. unfold integral_value. rewrite Hx.
  assert (Hpow : 0 < 2 ^ (- ez)) by (apply Z.pow_pos_nonneg; lia).
  destruct (Z.leb_spec 0 ez) as [H0|H0].
  - assert (ez = 0) by lia. subst ez. simpl in Hm. f_equal.
    destruct s; simpl; lia.
  - assert (Hsm : (if s then Z.neg mz else Z.pos mz)
                  = (if s then Z.neg p else Z.pos p) * 2 ^ (- ez)).
    { destruct s; [|assumption].
      rewrite <- !Pos2Z.opp_pos, Hm. lia. }
    rewrite Hsm, Z.mod_mul, Z.div_mul by lia. reflexivity.
Qed.

Lemma integral_value_float_of_Z (n : Z) :
  Z.abs n < 2 ^ 53 -> integral_value (float_of_Z n) = Some n.
Proof.
  intros Hn. destruct n as [|p|p]; [reflexivity| |].
  - destruct (of_uint63_small p Hn) as [mz [ez [Hx [He Hm]]]].
    exact (integral_value_finite _ false mz ez p Hx He Hm).
  - destruct (of_uint63_small p Hn) as [mz [ez [Hx [He Hm]]]].
    apply (integral_value_finite _ true mz ez p); [|assumption|assumption].
    unfold float_of_Z. simpl Z.opp. rewrite opp_spec, Hx. reflexivity.
Qed.

Lemma Prim2SF_float_of_Z_finite (n : Z) :
  n <> 0 -> Z.abs n < 2 ^ 53 ->
  exists s m e, Prim2SF (float_of_Z n) = S754_finite s m e.
Proof.
  intros Hn0 Hn. destruct n as [|p|p]; [now elim Hn0| |].
  - destruct (of_uint63_small p Hn) as [mz [ez [Hx _]]]. eauto.
  - destruct (of_uint63_small p Hn) as [mz [ez [Hx _]]].
    exists true, mz, ez. unfold float_of_Z. simpl Z.opp.
    now rewrite opp_spec, Hx.
Qed.

Lemma mantissa_small (x : float) s m e :
  Prim2SF x = S754_finite s m e -> Z.pos m < 2 ^ 53.
Proof.
  intros Hx. pose proof (Prim2SF_valid x) as Hv. rewrite Hx in Hv.
  simpl in Hv. unfold bounded, canonical_mantissa in Hv.
  apply andb_true_iff in Hv as [Hc _]. apply Z.eqb_eq in Hc.
  unfold fexp, emin, prec, emax in Hc.
  pose proof (digits2_bounds m) as [_ Hhi].
  assert (2 ^ Z.pos (digits2_pos m) <= 2 ^ 53)
    by (apply Z.pow_le_mono_r; lia).
  lia.
Qed.

Lemma Some_inj {A} (a b : A) : Some a = Some b -> a = b.
Proof. congruence. Qed.

Lemma round_half_up_finite (x : float) s m e :
  Prim2SF x = S754_finite s m e ->
  round_half_up x
  = Some (let sm := if s then Z.neg m else Z.pos m in
          if 0 <=? e then sm * 2 ^ e
          else (2 * sm + 2 ^ (- e)) / 2 ^ (- e + 1)).
Proof. intros Hx. unfold round_half_up. now rewrite Hx. Qed.

Lemma NumberToString_Math_round (x : float) (n : Z) :
  round_half_up x = Some n ->
  NumberToString (Math_round x)
  = if Z.abs n <? 2 ^ 53 then Some (string_of_Z n) else None.
Proof.
  intros Hr. unfold Math_round.
  destruct (Prim2SF x) as [s|s| |s m e] eqn:Hx.
  - unfold round_half_up in Hr. rewrite Hx in Hr. injection Hr as <-.
    unfold NumberToString, integral_value. now rewrite Hx.
  - unfold round_half_up in Hr. rewrite Hx in Hr. discriminate.
  - unfold round_half_up in Hr. rewrite Hx in Hr. discriminate.
  - pose proof (round_half_up_finite x s m e Hx) as Hf.
    rewrite Hr in Hf. apply Some_inj in Hf. cbv zeta in Hf.
    set (sm := if s then Z.neg m else Z.pos m) in Hf.
    destruct (Z.leb_spec 0 e) as [He|He].
    + unfold NumberToString, integral_value. rewrite Hx. fold sm.
      destruct (Z.leb_spec 0 e); [now rewrite Hf|lia].
    + rewrite Hr.
      assert (Hn : Z.abs n < 2 ^ 53).
      { pose proof (mantissa_small x s m e Hx) as Hm.
        pose proof (half_up_bounds sm (- e) ltac:(lia)) as Hb.
        cbv zeta in Hb. rewrite <- Hf in Hb.
        assert (HD : 2 <= 2 ^ (- e)).
        { change 2 with (2 ^ 1) at 1. apply Z.pow_le_mono_r; lia. }
        assert (Hsm : Z.abs sm < 2 ^ 53) by (subst sm; destruct s; simpl; lia).
        nia. }
      assert (Hbig : (Z.abs n <? 2 ^ 53) = true).
      { apply Z.ltb_lt. exact Hn. }
      rewrite Hbig. clear Hf.
      destruct (Z.eq_dec n 0) as [-> | Hn0]; [now destruct s|].
      assert (E : match n with
                  | 0 => if s then (- 0)%float else 0%float
                  | _ => float_of_Z n
                  end = float_of_Z n) by (destruct n; [now elim Hn0| |]; reflexivity).
      rewrite E. unfold NumberToString.
      destruct (Prim2SF_float_of_Z_finite n Hn0 Hn) as [s' [m' [e' Hp]]].
      rewrite Hp, (integral_value_float_of_Z n Hn), Hbig. reflexivity.
Qed.

Lemma round_half_up_nearest (x : float) (q : Q) :
  float_value x = Some q ->
  exists n, round_half_up x = Some n /\
            (inject_Z n - (1 # 2) <= q)%Q /\ (q < inject_Z n + (1 # 2))%Q.
Proof.
  unfold float_value, round_half_up.
  destruct (Prim2SF x) as [s|s| |s m e]; try discriminate.
  - intros [= <-]. exists 0. split; [reflexivity|]. split; [discriminate|reflexivity].
  - intros [= <-]. set (sm := if s then Z.neg m else Z.pos m).
    eexists. split; [reflexivity|].
    destruct (Z.leb_spec 0 e) as [He|He].
    + unfold Qle, Qlt, Qminus, Qplus, Qopp, inject_Z; simpl. lia.
    + pose proof (half_up_bounds sm (- e) ltac:(lia)) as Hb.
      cbv zeta in Hb.
      assert (Hp : Z.pos (2 ^ Z.to_pos (- e)) = 2 ^ (- e)).
      { rewrite Pos2Z.inj_pow, Z2Pos.id; lia. }
      generalize dependent ((2 * sm + 2 ^ (- e)) / 2 ^ (- e + 1)).
      generalize dependent sm. intros sm n Hb.
      unfold Qle, Qlt, Qminus, Qplus, Qopp, inject_Z. cbn [Qnum Qden].
      rewrite Hp. lia.
Qed.

End FloatFacts.

(* ------------------------------------------------------------------ *)
(** ** Properties of the analysis panel *)

Module PanelFacts.
Import JS Moderation Modal Panel Properties.

Lemma triggeredFlags_of_object props entries :
  triggeredFlags_of (Obj props) entries
  = Ok (filter (fun kl => truthy_opt (lookup (fst kl) props)) entries).
Proof.
  induction entries as [|[k l] entries IH]; simpl; [reflexivity|].
  rewrite IH. simpl. now destruct (truthy_opt (lookup k props)).
Qed.

Lemma moderationChecks_of_object props entries :
  moderationChecks_of (Obj props) entries
  = Ok (map (fun kl => {| key := fst kl; label := snd kl;
                          marker := if truthy_opt (lookup (fst kl) props)
                                    then "Flagged" else "Clear" |})
            entries).
Proof.
  induction entries as [|[k l] entries IH]; simpl; [reflexivity|].
  now rewrite IH.
Qed.

Lemma map_fst_filter {A B} (p : A -> bool) (l : list (A * B)) :
  map fst (filter (fun kl => p (fst kl)) l) = filter p (map fst l).
Proof.
  induction l as [|[a b] l IH]; simpl; [reflexivity|].
  destruct (p a); simpl; now rewrite IH.
Qed.

Lemma wellTyped_shape a :
  wellTyped a = true ->
  exists props reasons chips c,
    flaggedCategories a = Obj props /\
    moderationReasons a = Arr reasons /\
    tags a = Arr chips /\
    confidence a = Num c.
Proof.
  unfold wellTyped. intros H.
  repeat (apply andb_true_iff in H as [H ?]).
  destruct (flaggedCategories a) as [| | | | |props]; try discriminate.
  destruct (moderationReasons a) as [| | | |reasons|]; try discriminate.
  destruct (tags a) as [| | | |chips|]; try discriminate.
  destruct (confidence a) as [| |c| | |]; try discriminate.
  now exists props, reasons, chips, c.
Qed.

(** C1, as the code has it. For a rejected record whose analysis has
    the declared shape and exactly two categories set, the panel lists
    exactly those two categories, in the order of [FLAG_LABELS], each
    with the marker [Flagged]. The other four categories get no row, and
    no row carries the marker [Clear]. *)
Theorem rejected_panel_lists_flagged (m : UploadedMedia) (a : AiAnalysis) :
  Modal.status m = rejected ->
  aiAnalysis m = Some a ->
  wellTyped a = true ->
  List.length (flaggedKeys (flaggedCategories a)) = 2%nat ->
  exists reasons rs,
    AIAnalysisPanel m
    = Returns (ContentNotApproved reasons (Some rs) remediationText) /\
    map key rs = flaggedKeys (flaggedCategories a) /\
    List.length rs = 2%nat /\
    (forall r, In r rs ->
       marker r = "Flagged" /\ In (key r, label r) FLAG_LABELS) /\
    (forall k, ~ In k (flaggedKeys (flaggedCategories a)) ->
       forall r, In r rs -> key r <> k) /\
    (forall r, In r rs -> marker r <> "Clear").
Proof.
  intros Hst Ha Hwt Htwo.
  destruct (wellTyped_shape a Hwt) as [props [reasons [chips [c [Hf [Hr _]]]]]].
  unfold AIAnalysisPanel, rejectedPanel, triggeredFlags.
  rewrite Hst, Ha, Hf, Hr, triggeredFlags_of_object.
  set (triggered := filter (fun kl => truthy_opt (lookup (fst kl) props))
                      FLAG_LABELS).
  set (rs := map (fun kl => {| key := fst kl; label := snd kl;
                               marker := "Flagged" |}) triggered).
  assert (Hkeys : map key rs = flaggedKeys (Obj props)).
  { unfold rs. rewrite map_map. simpl.
    unfold triggered.
    exact (map_fst_filter (fun k => truthy_opt (lookup k props)) FLAG_LABELS). }
  assert (Hlen : List.length triggered = 2%nat).
  { rewrite Hf in Htwo. rewrite <- Hkeys in Htwo.
    unfold rs in Htwo. now rewrite !length_map in Htwo. }
  cbv beta iota delta [and_then of_result reasonsList].
  fold rs. rewrite Hlen. simpl Nat.ltb. cbv iota.
  exists (if (0 <? List.length reasons)%nat then Some reasons else None), rs.
  repeat split.
  - exact Hkeys.
  - unfold rs. now rewrite length_map.
  - unfold rs in H. apply in_map_iff in H as [kl [<- _]]. reflexivity.
  - unfold rs in H. apply in_map_iff in H as [[k l] [<- Hin]]. simpl.
    unfold triggered in Hin. now apply filter_In in Hin as [Hin _].
  - intros k Hk r Hin Heq. apply Hk. rewrite <- Hkeys, <- Heq.
    now apply in_map.
  - intros r Hin. unfold rs in Hin.
    apply in_map_iff in Hin as [kl [<- _]]. discriminate.
Qed.

Lemma rejected_panel_lists_flagged_witness :
  exists reasons rs,
    AIAnalysisPanel Samples.rejectedRecord
    = Returns (ContentNotApproved reasons (Some rs) remediationText) /\
    map key rs = ["nudity"; "violence"].
Proof.
  destruct (rejected_panel_lists_flagged Samples.rejectedRecord
              Samples.unsafeAnalysis eq_refl eq_refl eq_refl eq_refl)
    as [reasons [rs [Hp [Hk _]]]].
  exists reasons, rs. split; [exact Hp|exact Hk].
Defined.

(** C1, as specified, fails: on a rejection with nudity and
    violence set, the panel has no row marking profanity as [Clear]. *)
Lemma rejected_panel_has_no_clear_rows :
  Modal.status Samples.rejectedRecord = rejected /\
  flaggedKeys (flaggedCategories Samples.unsafeAnalysis)
  = ["nudity"; "violence"] /\
  ~ marksEveryCategory Samples.rejectedRecord Samples.unsafeAnalysis.
Proof.
  split; [reflexivity|]. split; [reflexivity|].
  intros [v [Hv H]]. injection Hv as <-.
  specialize (H "profanity" "Profanity / Offensive text").
  simpl in H.
  destruct H as [H|[H|[]]]; [now right; left|discriminate H|discriminate H].
Qed.

(** C10, as the code has it. For an approved record whose analysis has
    the declared shape, the panel shows [Math.round(confidence * 100)],
    the product being the binary64 one, itself rounded. Whenever that
    product is finite, the number shown is the integer nearest to it, a
    tie going up, and below 2^53 the text shown is the decimal notation
    of that integer followed by a percent sign. A confidence of 0.873 is
    shown as 87%. *)
Theorem confidence_percentage (m : UploadedMedia) (a : AiAnalysis) (c : float) :
  Modal.status m = approved ->
  aiAnalysis m = Some a ->
  wellTyped a = true ->
  confidence a = Num c ->
  let pct := Math_round (c * 100)%float in
  exists shown chips checks,
    AIAnalysisPanel m = Returns (ContentApproved shown chips pct checks) /\
    (forall q, float_value (c * 100)%float = Some q ->
       exists n : Z,
         (inject_Z n - (1 # 2) <= q)%Q /\ (q < inject_Z n + (1 # 2))%Q /\
         percentText pct
         = if (Z.abs n <? 2 ^ 53)%Z then Some (string_of_Z n ++ "%")
           else None) /\
    (c = 0.873%float -> percentText pct = Some "87%").
Proof.
  intros Hst Ha Hwt Hc pct.
  destruct (wellTyped_shape a Hwt) as [props [reasons [chips [c' [Hf [_ [Ht _]]]]]]].
  unfold AIAnalysisPanel, approvedPanel, confidencePct_of.
  rewrite Hst, Ha, Hc, Ht, Hf, moderationChecks_of_object.
  cbv beta iota delta [ToNumber tagList and_then of_result]. fold pct.
  do 3 eexists. split; [reflexivity|]. split.
  - intros q Hq.
    destruct (FloatFacts.round_half_up_nearest _ q Hq) as [n [Hn [Hlo Hhi]]].
    exists n. split; [assumption|]. split; [assumption|].
    unfold percentText, pct.
    rewrite (FloatFacts.NumberToString_Math_round _ n Hn).
    now destruct (Z.abs n <? 2 ^ 53)%Z.
  - intros ->. reflexivity.
Qed.

(** C10, as specified, fails: the number shown is the rounding of the
    rounded product, not of the product. The float 0.995 lies just
    below 995/1000, so 100 times it is just below 99.5 and rounds to
    99; but the binary64 product is 99.5 exactly, and the panel shows
    100%. *)
Lemma rounded_product_is_shown :
  exactPercent 0.995%float = Some 99%Z /\
  (exists shown chips checks,
      AIAnalysisPanel nearlySure
      = Returns (ContentApproved shown chips
                   (Math_round (0.995 * 100)%float) checks)) /\
  percentText (Math_round (0.995 * 100)%float) = Some "100%" /\
  ~ showsExactPercent nearlySure 0.995%float.
Proof.
  split; [reflexivity|]. split; [do 3 eexists; reflexivity|].
  split; [reflexivity|].
  intros [n [shown [chips [pct [checks [Hn [Hp Ht]]]]]]].
  injection Hn as <-. injection Hp as _ _ <- _.
  discriminate Ht.
Qed.

Lemma confidence_percentage_witness :
  exists shown chips checks,
    AIAnalysisPanel Samples.approvedRecord
    = Returns (ContentApproved shown chips
                 (Math_round (0.873 * 100)%float) checks) /\
    percentText (Math_round (0.873 * 100)%float) = Some "87%".
Proof.
  destruct (confidence_percentage Samples.approvedRecord Samples.safeAnalysis
              0.873%float eq_refl eq_refl eq_refl eq_refl)
    as [shown [chips [checks [Hp [_ Ht]]]]].
  exists shown, chips, checks. split; [exact Hp|exact (Ht eq_refl)].
Defined.

End PanelFacts.

(* ------------------------------------------------------------------ *)
(** ** Further properties of the modal *)

Module ModalMore.
Import JS Moderation Modal Properties Invariants ModalFacts.

Lemma find_absent i l :
  (forall m : UploadedMedia, In m l -> id m <> i) ->
  find (fun m => String.eqb (id m) i) l = None.
Proof.
  intros H. destruct (find _ l) as [m|] eqn:E; [|reflexivity].
  apply find_some in E as [Hin Hid]. apply String.eqb_eq in Hid.
  now elim (H m Hin).
Qed.

Lemma filter_absent i l :
  (forall m : UploadedMedia, In m l -> id m <> i) ->
  filter (fun m => negb (String.eqb (id m) i)) l = l.
Proof.
  induction l as [|m l IH]; intros H; [reflexivity|]. simpl.
  assert (Hm : id m <> i) by (apply H; now left).
  apply String.eqb_neq in Hm. rewrite Hm. simpl. f_equal.
  apply IH. intros m' Hin. apply H. now right.
Qed.

Lemma removeMedia_absent_noop i s : absent i s -> removeMedia i s = s.
Proof.
  intros Habs. unfold removeMedia.
  rewrite (find_absent i _ Habs), (filter_absent i _ Habs).
  apply setUploadedMedia_same.
Qed.

(** X1. Removing an identifier that no record has changes nothing: no
    record goes and no URL is released. Hence removing the same record
    twice is removing it once. *)
Theorem removeMedia_once (i : string) (s : State) :
  (absent i s -> removeMedia i s = s) /\
  removeMedia i (removeMedia i s) = removeMedia i s.
Proof.
  split; [apply removeMedia_absent_noop|].
  apply removeMedia_absent_noop, removeMedia_absent.
Qed.

Lemma removeMedia_once_witness :
  removeMedia "p7m2c" (handleFileSelect (Some [Samples.photo]) "k3x9q" initial)
  = handleFileSelect (Some [Samples.photo]) "k3x9q" initial.
Proof.
  apply (proj1 (removeMedia_once "p7m2c"
                  (handleFileSelect (Some [Samples.photo]) "k3x9q" initial))).
  intros m [<-|[]]. discriminate.
Defined.

Lemma stored_step s e :
  (forall m, In m (uploadedMedia s) -> settled_as_stored m /\ made_from_file m) ->
  forall m, In m (uploadedMedia (step s e)) ->
            settled_as_stored m /\ made_from_file m.
Proof.
  intros H. destruct e as [files newId|newId outcome|i| | | |]; simpl.
  - destruct (firstFile files) as [f|] eqn:Hf;
      [|rewrite handleFileSelect_refused; [assumption|now rewrite Hf]].
    destruct (isImage f || isVideo f) eqn:Hacc;
      [|rewrite handleFileSelect_refused; [assumption|now rewrite Hf]].
    destruct (handleFileSelect_accepted files newId s f Hf Hacc) as [Hm _].
    rewrite Hm. intros m [<-|[]]. split.
    + now split.
    + now split.
  - intros m Hm. unfold analysisSettled in Hm. simpl in Hm.
    apply in_map_iff in Hm as [m0 [<- Hm0]].
    destruct (H m0 Hm0) as [Hs Hf].
    destruct (negb (id m0 =? newId)); [now split|].
    destruct outcome as [a|e]; (split; [|exact Hf]).
    + unfold settled_as_stored, withAnalysis. simpl.
      destruct (strict_eq_string (moderationStatus a) "safe") eqn:E;
        now exists a.
    + exact I.
  - intros m Hm. unfold removeMedia in Hm. simpl in Hm.
    apply filter_In in Hm as [Hm _]. auto.
  - unfold handlePublish. now destruct (0 <? approvedCount s)%nat.
  - assumption.
  - intros m [].
  - assumption.
Qed.

Lemma stored_reachable s m :
  reachable s ->
  In m (uploadedMedia s) ->
  settled_as_stored m /\ made_from_file m.
Proof.
  intros Hr. revert m. induction Hr as [|s e _ IH]; [intros m []|].
  now apply stored_step.
Qed.

(** X2. In every reachable state the stored analysis goes with the
    status of each record: an approved record holds an analysis whose
    [moderationStatus] is the string [safe], a rejected record holds an
    analysis whose [moderationStatus] is anything else, a record still
    analysing holds no analysis and no error text. Each record is of an
    accepted file, and is an image exactly when the MIME type of its
    file starts with [image/]. *)
Theorem records_as_stored (s : State) (m : UploadedMedia) :
  reachable s ->
  In m (uploadedMedia s) ->
  settled_as_stored m /\ made_from_file m.
Proof. apply stored_reachable. Qed.

Lemma records_as_stored_witness :
  settled_as_stored (withAnalysis Samples.safeAnalysis
                       (newMedia "k3x9q" Samples.photo 0)).
Proof.
  exact (proj1 (records_as_stored
                  (run initial [FileSelected (Some [Samples.photo]) "k3x9q";
                                AnalysisSettled "k3x9q" (Ok Samples.safeAnalysis)])
                  (withAnalysis Samples.safeAnalysis
                     (newMedia "k3x9q" Samples.photo 0))
                  (reachable_step _ _ (reachable_step _ _ reachable_initial))
                  (or_introl eq_refl))).
Defined.

Lemma alive_step s e : tidy s -> urls_alive s -> urls_alive (step s e).
Proof.
  intros [Hlen Hurl] [Hall Hrec].
  destruct e as [files newId|newId outcome|i| | | |]; simpl.
  - destruct (firstFile files) as [f|] eqn:Hf;
      [|rewrite handleFileSelect_refused; [now split|now rewrite Hf]].
    destruct (isImage f || isVideo f) eqn:Hacc;
      [|rewrite handleFileSelect_refused; [now split|now rewrite Hf]].
    destruct (handleFileSelect_accepted files newId s f Hf Hacc) as [Hm Hn].
    pose proof (handleFileSelect_calls files newId s f Hf Hacc) as Hc.
    pose proof (Hall (nextURL s)) as [Hrn Han].
    rewrite Nat.ltb_irrefl in Han.
    destruct (uploadedMedia s) as [|m [|m' l]] eqn:Hl;
      [| |simpl in Hlen; lia].
    + split.
      * intros u. destruct (Hall u) as [Hr Ha].
        unfold allocations, releases in *. rewrite Hn, Hc.
        count_calls. split_tests; lia.
      * rewrite Hm. intros m0 [<-|[]]. simpl.
        unfold allocations, releases in *. rewrite Hc.
        count_calls. split_tests; lia.
    + assert (Hlt : (url m < nextURL s)%nat) by (apply Hurl; now left).
      destruct (Hrec m (or_introl eq_refl)) as [Hma Hmr].
      split.
      * intros u. destruct (Hall u) as [Hr Ha].
        unfold allocations, releases in *. rewrite Hn, Hc.
        count_calls. split_tests; subst; lia.
      * rewrite Hm. intros m0 [<-|[]]. simpl.
        unfold allocations, releases in *. rewrite Hc.
        count_calls. split_tests; lia.
  - split; [exact Hall|].
    intros m Hm. unfold analysisSettled in Hm. simpl in Hm.
    apply in_map_iff in Hm as [m0 [<- Hm0]].
    destruct (Hrec m0 Hm0) as [Ha Hr].
    destruct (negb (id m0 =? newId)); [now split|].
    destruct outcome; now split.
  - unfold removeMedia.
    destruct (uploadedMedia s) as [|m [|m' l]] eqn:Hl;
      [| |simpl in Hlen; lia].
    + simpl. split; [exact Hall|]. simpl. intros m [].
    + destruct (Hrec m (or_introl eq_refl)) as [Hma Hmr].
      simpl. destruct (String.eqb (id m) i) eqn:E; simpl.
      * split; [|intros m0 []].
        intros u. destruct (Hall u) as [Hr Ha].
        unfold allocations, releases in *.
        count_calls. split_tests; subst; lia.
      * split; [exact Hall|]. intros m0 [<-|[]]. now split.
  - unfold handlePublish. destruct (0 <? approvedCount s)%nat; now split.
  - now split.
  - split; [exact Hall|]. intros m [].
  - now split.
Qed.

Lemma alive_reachable s : reachable s -> urls_alive s.
Proof.
  induction 1 as [|s e Hr IH].
  - split; [intros u; now split|intros m []].
  - apply alive_step; [now apply reachable_tidy|assumption].
Qed.

(** X5. Publishing. Without an approved record [handlePublish] does
    nothing. With one, the click, the timer and the [Done] button of the
    confirmation leave a modal with no record, not publishing, the
    dialog closed, and [onOpenChange(false)] called once more; on the
    way no call is made on [URL]. *)
Theorem publish_flow (s : State) :
  if (0 <? approvedCount s)%nat
  then isPublishing (handlePublish s) = true /\
       run s [PublishClicked; PublishTimerFired; SuccessDoneClicked]
       = {| uploadedMedia := [];
            isPublishing := false;
            showSuccessDialog := false;
            urlCalls := urlCalls s;
            nextURL := nextURL s;
            onOpenChange := onOpenChange s ++ [false] |}
  else handlePublish s = s.
Proof.
  destruct (0 <? approvedCount s)%nat eqn:E.
  - simpl. unfold handlePublish. rewrite E. now split.
  - unfold handlePublish. now rewrite E.
Qed.

End ModalMore.

(* ------------------------------------------------------------------ *)
(** ** Properties of what the modal shows *)

Module ScreenFacts.
Import JS Moderation Modal Panel Properties Screen Invariants ModalFacts.

Lemma rejectedPanel_returns a v :
  rejectedPanel a = Returns v ->
  exists reasons flagged, v = ContentNotApproved reasons flagged remediationText.
Proof.
  unfold rejectedPanel.
  destruct (triggeredFlags (flaggedCategories a)) as [triggered|e];
    [|discriminate].
  cbn [of_result and_then].
  destruct (reasonsList (moderationReasons a)) as [reasons|e|];
    [|discriminate|discriminate].
  cbn [and_then]. intros H. injection H as <-. eauto.
Qed.

Lemma approvedPanel_returns a v :
  approvedPanel a = Returns v ->
  exists shown chips pct checks, v = ContentApproved shown chips pct checks.
Proof.
  unfold approvedPanel.
  destruct (confidencePct_of (confidence a)) as [pct|]; [|discriminate].
  destruct (tagList (tags a)) as [chips|e]; [|discriminate].
  cbn [of_result and_then].
  destruct (moderationChecks_of (flaggedCategories a) FLAG_LABELS)
    as [checks|e]; [|discriminate].
  cbn [of_result and_then]. intros H. injection H as <-. eauto.
Qed.

(** X6. In every reachable state the panel of a record never comes out
    empty ([return null]): a record that is approved or rejected always
    has its analysis stored. While a record is analysing, and only
    then, the panel is the progress notice. *)
Theorem panel_never_empty (s : State) (m : UploadedMedia) :
  reachable s ->
  In m (uploadedMedia s) ->
  AIAnalysisPanel m <> Returns Nothing /\
  (AIAnalysisPanel m = Returns AnalysisInProgress <-> Modal.status m = analyzing).
Proof.
  intros Hr Hm.
  destruct (ModalMore.stored_reachable s m Hr Hm) as [Hs _].
  unfold settled_as_stored in Hs. unfold AIAnalysisPanel.
  destruct (Modal.status m) eqn:Est.
  - split; [discriminate|]. now split.
  - destruct Hs as [a [Ha _]]. rewrite Ha. split.
    + intros H. apply approvedPanel_returns in H as [? [? [? [? H]]]].
      discriminate H.
    + split; [|discriminate].
      intros H. apply approvedPanel_returns in H as [? [? [? [? H]]]].
      discriminate H.
  - destruct Hs as [a [Ha _]]. rewrite Ha. split.
    + intros H. apply rejectedPanel_returns in H as [? [? H]].
      discriminate H.
    + split; [|discriminate].
      intros H. apply rejectedPanel_returns in H as [? [? H]].
      discriminate H.
  - split; [discriminate|]. split; discriminate.
Qed.

Lemma panel_never_empty_witness :
  AIAnalysisPanel (newMedia "k3x9q" Samples.photo 0) <> Returns Nothing.
Proof.
  exact (proj1 (panel_never_empty
                  (step initial (FileSelected (Some [Samples.photo]) "k3x9q"))
                  (newMedia "k3x9q" Samples.photo 0)
                  (reachable_step _ _ reachable_initial)
                  (or_introl eq_refl))).
Defined.

(** X7. What a reachable state looks like on an open modal. With no
    record: the upload area with the file input, no preview, no panel,
    [Publish] disabled, no footer. Otherwise there is exactly one
    record: no upload area, hence no file input; one preview and one
    panel, both of that record; [Publish] is enabled exactly when the
    record is approved, and the footer then reads
    [1 item ready to publish], never a plural. *)
Theorem one_item_on_screen (s : State) :
  reachable s ->
  exists v, StoryUploadModal true s = Some v /\
    match uploadedMedia s with
    | [] =>
        uploadArea v = true /\ previews v = [] /\ panels v = [] /\
        publishIsDisabled v = true /\ footer v = None
    | [m] =>
        uploadArea v = false /\
        previews v = [CompactMediaPreview m] /\
        panels v = [AIAnalysisPanel m] /\
        publishIsDisabled v = negb (Status_eqb (Modal.status m) approved) /\
        footer v = (if Status_eqb (Modal.status m) approved
                    then Some "1 item ready to publish" else None)
    | _ => False
    end.
Proof.
  intros Hr. destruct (reachable_tidy s Hr) as [Hlen _].
  eexists. split; [reflexivity|].
  unfold publishDisabled, approvedCount, analyzingCount. simpl.
  destruct (uploadedMedia s) as [|m [|m' l]]; [| |simpl in Hlen; lia].
  - now repeat split.
  - simpl. now destruct (Modal.status m).
Qed.

Lemma one_item_on_screen_witness :
  exists v, StoryUploadModal true initial = Some v /\
            uploadArea v = true /\ publishIsDisabled v = true.
Proof.
  destruct (one_item_on_screen initial reachable_initial) as [v [Hv H]].
  exists v. split; [exact Hv|]. simpl in H.
  split; [exact (proj1 H)|exact (proj1 (proj2 (proj2 (proj2 H))))].
Defined.

(** X8. In every reachable state the preview follows its record: it
    shows an image element exactly when the MIME type of the file
    starts with [image/], and a video element only for a type starting
    with [video/]; its source is an object URL that was handed out and
    not released; the overlay [Content Rejected] is only shown over a
    record whose stored analysis does not say [safe]. *)
Theorem preview_follows_record (s : State) (m : UploadedMedia) :
  reachable s ->
  In m (uploadedMedia s) ->
  let p := CompactMediaPreview m in
  (element p = img <-> startsWith (file_type (file m)) "image/" = true) /\
  (element p = videoElement ->
   startsWith (file_type (file m)) "video/" = true) /\
  (allocations (src p) s = 1%nat /\ releases (src p) s = 0%nat) /\
  (overlay p = Some "Content Rejected" ->
   exists a, aiAnalysis m = Some a /\ moderationStatus a <> Some (Str "safe")).
Proof.
  intros Hr Hm p.
  destruct (ModalMore.stored_reachable s m Hr Hm) as [Hs [Hacc Hty]].
  destruct (ModalMore.alive_reachable s Hr) as [_ Hrec].
  unfold isImage, isVideo in *. subst p. unfold CompactMediaPreview. simpl.
  repeat split.
  - rewrite Hty.
    destruct (startsWith (file_type (file m)) "image/"); [reflexivity|discriminate].
  - intros H. rewrite Hty, H. reflexivity.
  - rewrite Hty.
    destruct (startsWith (file_type (file m)) "image/"); [discriminate|].
    intros _. exact Hacc.
  - now destruct (Hrec m Hm).
  - now destruct (Hrec m Hm).
  - unfold settled_as_stored in Hs.
    destruct (Modal.status m); try discriminate.
    intros _. destruct Hs as [a [Ha Hn]]. exists a. split; [assumption|].
    intros E. rewrite E in Hn. discriminate Hn.
Qed.

Lemma preview_follows_record_witness :
  element (CompactMediaPreview (newMedia "k3x9q" Samples.clip 0)) = videoElement /\
  startsWith (file_type Samples.clip) "video/" = true.
Proof.
  split; [reflexivity|].
  exact (proj1 (proj2 (preview_follows_record
                         (step initial (FileSelected (Some [Samples.clip]) "k3x9q"))
                         (newMedia "k3x9q" Samples.clip 0)
                         (reachable_step _ _ reachable_initial)
                         (or_introl eq_refl))) eq_refl).
Defined.

End ScreenFacts.

(* ------------------------------------------------------------------ *)
(** ** Further properties of the moderation client *)

Module ModerationMore.
Import JS Moderation Modal Properties Invariants ModerationFacts.

(** The effects of a run, by how far it got. *)
Lemma analyze_effects env w f :
  let effects := fst (analyzeMediaWithClaude env w f) in
  effects = [encodingStep f] \/
  exists data,
    encodingOf w f = Ok data /\
    falsy_key (VITE_ANTHROPIC_API_KEY env) = false /\
    (effects = [encodingStep f; Fetch (requestOf env f data)] \/
     effects = [encodingStep f; Fetch (requestOf env f data); ResponseText] \/
     effects = [encodingStep f; Fetch (requestOf env f data); ResponseJson]).
Proof.
  destruct (falsy_key (VITE_ANTHROPIC_API_KEY env)) eqn:Hk.
  { left. now rewrite (analyze_without_key env w f Hk). }
  destruct (encodingOf w f) as [data|e] eqn:He.
  - destruct (fetch_result w (requestOf env f data)) as [r|e] eqn:Hf.
    + right. exists data. split; [reflexivity|]. split; [reflexivity|].
      rewrite (analyze_until_response env w f data r Hk He Hf).
      unfold bind, perform, lift, throw.
      destruct (ok r); simpl.
      * destruct (json r) as [blocks|e]; [|now right; right].
        destruct (JSON_parse w _); now right; right.
      * destruct (text r) as [err|e]; [|now right; left].
        destruct (Moderation.status r =? 404)%nat; now right; left.
    + right. exists data. split; [reflexivity|]. split; [reflexivity|].
      left. unfold analyzeMediaWithClaude, encodingStep, encodingOf, requestOf,
        configuredModel in *.
      unfold extractVideoFrame, fileToBase64, fetch, perform.
      destruct (startsWith (file_type f) "video/");
        rewrite He; unfold bind at 1; rewrite Hk, Hf; reflexivity.
  - left. unfold analyzeMediaWithClaude, encodingStep, encodingOf in *.
    unfold extractVideoFrame, fileToBase64, perform.
    destruct (startsWith (file_type f) "video/"); rewrite He; reflexivity.
Qed.

Lemma encodingStep_not_fetch f : isFetch (encodingStep f) = false.
Proof. unfold encodingStep. now destruct (startsWith (file_type f) "video/"). Qed.

(** X9. Whatever the browser and the endpoint answer, one call of
    [analyzeMediaWithClaude] encodes the file first and once, sends at
    most one request and reads at most one body: it never retries. *)
Theorem one_request_at_most (env : Env) (w : World) (f : File) :
  let effects := fst (analyzeMediaWithClaude env w f) in
  hd_error effects = Some (encodingStep f) /\
  (List.length (filter isFetch effects) <= 1)%nat /\
  (List.length effects <= 3)%nat /\
  (forall e, In e (tl effects) -> e <> ExtractVideoFrame f /\ e <> FileToBase64 f).
Proof.
  intros effects. pose proof (analyze_effects env w f) as H.
  fold effects in H. cbv zeta in H.
  pose proof (encodingStep_not_fetch f) as Hn.
  destruct H as [-> | [data [_ [_ [-> | [-> | ->]]]]]]; simpl; rewrite Hn; simpl;
    (split; [reflexivity|split; [lia|split; [lia|]]]);
    intros e Hin; simpl in Hin; intuition (subst; discriminate).
Qed.

Lemma one_request_at_most_witness :
  hd_error (fst (analyzeMediaWithClaude Samples.withKey
                   (Samples.answering Samples.okReply) Samples.photo))
  = Some (FileToBase64 Samples.photo).
Proof.
  exact (proj1 (one_request_at_most Samples.withKey
                  (Samples.answering Samples.okReply) Samples.photo)).
Defined.

Lemma truthy_key k : falsy_key k = false -> exists t, k = Some t /\ t <> "".
Proof.
  destruct k as [t|]; [|discriminate]. simpl. intros H.
  exists t. split; [reflexivity|]. now apply String.eqb_neq.
Qed.

(** X10. Every request that is sent is a POST to the messages endpoint
    carrying the credential of the environment, which is not empty, in
    its [x-api-key] header; it names the model of the environment, or
    [claude-sonnet-4-20250514] when none is set; it allows 1000 tokens;
    and the image it carries is the encoded file, declared as the
    file's own MIME type for an image and as [image/jpeg] for a video. *)
Theorem request_contents (env : Env) (w : World) (f : File) (req : Request) :
  In (Fetch req) (fst (analyzeMediaWithClaude env w f)) ->
  exists k data,
    VITE_ANTHROPIC_API_KEY env = Some k /\ k <> "" /\
    encodingOf w f = Ok data /\
    endpoint req = "https://api.anthropic.com/v1/messages" /\
    method req = "POST" /\
    header "x-api-key" (headers req) = Some k /\
    model (body req)
    = match VITE_ANTHROPIC_MODEL env with
      | Some m => m
      | None => "claude-sonnet-4-20250514"
      end /\
    max_tokens (body req) = 1000%nat /\
    (exists note,
        messages (body req)
        = [ {| role := "user";
               content :=
                 [ ImageBlock
                     (if startsWith (file_type f) "video/" then "image/jpeg"
                      else file_type f)
                     data;
                   TextBlock note ] |} ]).
Proof.
  intros Hin. pose proof (analyze_effects env w f) as H. cbv zeta in H.
  assert (Hne : forall r, Fetch r <> encodingStep f).
  { intros r E. pose proof (encodingStep_not_fetch f) as Hn.
    rewrite <- E in Hn. discriminate Hn. }
  destruct H as [H | [data [He [Hk H]]]].
  - rewrite H in Hin. destruct Hin as [E|[]]. now elim (Hne req).
  - assert (Hreq : req = requestOf env f data).
    { destruct H as [H | [H | H]]; rewrite H in Hin; simpl in Hin;
        destruct Hin as [E | [E | Hin]];
        try (now elim (Hne req)); try congruence;
        try (destruct Hin as [E|[]]; discriminate E); now destruct Hin. }
    destruct (truthy_key _ Hk) as [k [Ek Hk0]].
    exists k, data. subst req.
    unfold requestOf, configuredModel. rewrite Ek. simpl.
    repeat split; try assumption. eexists. reflexivity.
Qed.

Lemma request_contents_witness :
  exists k data,
    VITE_ANTHROPIC_API_KEY Samples.withKey = Some k /\ k <> "" /\
    encodingOf (Samples.answering Samples.okReply) Samples.clip = Ok data.
Proof.
  destruct (request_contents Samples.withKey (Samples.answering Samples.okReply)
              Samples.clip
              (requestOf Samples.withKey Samples.clip "ZnJhbWU=")
              (or_intror (or_introl eq_refl)))
    as [k [data [H1 [H2 [H3 _]]]]].
  exists k, data. split; [exact H1|]. split; [exact H2|exact H3].
Defined.

(** X11. A reply that cannot be used ends the record in [error] with
    the message of what was thrown: a body that [response.json()]
    rejects, a text that [JSON.parse] rejects, and a text that parses to
    [null], on which the first property read throws. None of them leaves
    the record approved or rejected. *)
Theorem unusable_reply_is_an_error (env : Env) (w : World) (f : File)
    (data : string) (r : Response) (e : exn) (newId : string) (s : State) :
  falsy_key (VITE_ANTHROPIC_API_KEY env) = false ->
  encodingOf w f = Ok data ->
  fetch_result w (requestOf env f data) = Ok r ->
  ok r = true ->
  json r = Throw e \/
  (exists blocks,
      json r = Ok blocks /\
      let clean := trim (stripFences (join (map block_text_or_empty blocks))) in
      JSON_parse w clean = Throw e \/
      (JSON_parse w clean = Ok Null /\ e = TypeError)) ->
  let outcome := snd (analyzeMediaWithClaude env w f) in
  outcome = Throw e /\
  (forall m, In m (uploadedMedia s) -> id m = newId ->
     exists m', In m' (uploadedMedia (analysisSettled newId outcome s)) /\
                id m' = newId /\ Modal.status m' = Modal.error /\
                errorMessage m' = message e).
Proof.
  intros Hk He Hf Hok Hcase outcome.
  assert (Hout : outcome = Throw e).
  { subst outcome.
    rewrite (analyze_until_response env w f data r Hk He Hf).
    unfold bind, perform, lift. rewrite Hok. simpl.
    destruct Hcase as [Hj | [blocks [Hj Hp]]]; rewrite Hj; [reflexivity|].
    cbv zeta in Hp. destruct Hp as [Hp | [Hp ->]]; now rewrite Hp. }
  split; [exact Hout|]. rewrite Hout.
  intros m Hm Hid. exists (withError e m).
  split; [now apply settled_with_error|]. now repeat split.
Qed.

Lemma unusable_reply_is_an_error_witness :
  snd (analyzeMediaWithClaude Samples.withKey
         (Samples.answering
            {| Moderation.status := 200; text := Ok "";
               json := Throw (Error "Unexpected end of JSON input") |})
         Samples.photo)
  = Throw (Error "Unexpected end of JSON input").
Proof.
  exact (proj1 (unusable_reply_is_an_error Samples.withKey
                  (Samples.answering
                     {| Moderation.status := 200; text := Ok "";
                        json := Throw (Error "Unexpected end of JSON input") |})
                  Samples.photo "cGhvdG8="
                  {| Moderation.status := 200; text := Ok "";
                     json := Throw (Error "Unexpected end of JSON input") |}
                  (Error "Unexpected end of JSON input") "k3x9q" initial
                  eq_refl eq_refl eq_refl eq_refl (or_introl eq_refl))).
Defined.

(** X12. When the call of a record settles, every record with its
    identifier leaves the status [analyzing]: it is [error] exactly when
    the call threw, with the message of the thrown value as its error
    text, and approved or rejected with the analysis stored when the
    call resolved. *)
Theorem settled_leaves_analyzing (newId : string) (outcome : result AiAnalysis)
    (s : State) (m' : UploadedMedia) :
  In m' (uploadedMedia (analysisSettled newId outcome s)) ->
  id m' = newId ->
  Modal.status m' <> analyzing /\
  (Modal.status m' = Modal.error <-> exists e, outcome = Throw e) /\
  (forall e, outcome = Throw e -> errorMessage m' = message e) /\
  (forall a, outcome = Ok a -> aiAnalysis m' = Some a).
Proof.
  intros Hin Hid. unfold analysisSettled in Hin. simpl in Hin.
  apply in_map_iff in Hin as [m [E Hm]].
  destruct (String.eqb_spec (id m) newId) as [Hm_id|Hm_id]; simpl in E.
  - subst m'. destruct outcome as [a|e]; simpl.
    + repeat split.
      * now destruct (strict_eq_string (moderationStatus a) "safe").
      * now destruct (strict_eq_string (moderationStatus a) "safe").
      * intros [e He]. discriminate He.
      * intros e He. discriminate He.
      * intros a' Ha. now injection Ha as <-.
    + repeat split; try discriminate.
      * intros _. now exists e.
      * intros e' He. now injection He as <-.
  - subst m'. now elim Hm_id.
Qed.

Lemma settled_leaves_analyzing_witness :
  Modal.status (withError (Error missingKeyMessage)
                  (newMedia "k3x9q" Samples.photo 0)) <> analyzing.
Proof.
  exact (proj1 (settled_leaves_analyzing "k3x9q"
                  (Throw (Error missingKeyMessage))
                  (handleFileSelect (Some [Samples.photo]) "k3x9q" initial)
                  (withError (Error missingKeyMessage)
                     (newMedia "k3x9q" Samples.photo 0))
                  (or_introl eq_refl) eq_refl)).
Defined.

End ModerationMore.

(* ------------------------------------------------------------------ *)
(** ** Properties of the text handling *)

Module TextFacts.
Import JS Moderation Properties Invariants ModerationFacts.

Lemma prefix_cons a p c r :
  String.prefix (String a p) (String c r)
  = (Ascii.eqb a c && String.prefix p r).
Proof.
  simpl. destruct (ascii_dec a c) as [->|Hn].
  - now rewrite Ascii.eqb_refl.
  - apply Ascii.eqb_neq in Hn. now rewrite Hn.
Qed.

Lemma prefix1 s : String.prefix "`" s = startsTick s.
Proof.
  destruct s as [|c r]; [reflexivity|].
  rewrite prefix_cons.
  assert (E : String.prefix "" r = true) by now destruct r.
  rewrite E. apply andb_true_r.
Qed.

Lemma prefix2 c r : String.prefix "``" (String c r) = (Ascii.eqb "`"%char c && startsTick r).
Proof. now rewrite prefix_cons, prefix1. Qed.

Lemma prefix3 c r :
  String.prefix "```" (String c r) = (Ascii.eqb "`"%char c && String.prefix "``" r).
Proof. now rewrite prefix_cons. Qed.

Lemma prefix_json c r :
  String.prefix "```json" (String c r) = true -> String.prefix "```" (String c r) = true.
Proof.
  rewrite prefix3, prefix_cons. intros H.
  apply andb_true_iff in H as [-> H]. simpl.
  destruct r as [|d r]; [discriminate|]. rewrite prefix_cons in H.
  apply andb_true_iff in H as [Hd H]. rewrite prefix2, Hd. simpl.
  destruct r as [|e r]; [discriminate|]. rewrite prefix_cons in H.
  apply andb_true_iff in H as [He _]. simpl. exact He.
Qed.

Lemma no_fence_kept c r :
  String.prefix "```" (String c r) = false ->
  stripFences_from 0 (String c r) = String c (stripFences_from 0 r).
Proof.
  intros H. cbn [stripFences_from].
  destruct (String.prefix "```json" (String c r)) eqn:E.
  - apply prefix_json in E. congruence.
  - now rewrite H.
Qed.

Lemma strip_keeps_no_tick r :
  startsTick r = false -> startsTick (stripFences_from 0 r) = false.
Proof.
  destruct r as [|c r]; [reflexivity|]. intros H.
  rewrite no_fence_kept; [exact H|].
  rewrite prefix3. cbn [startsTick] in H. now rewrite H.
Qed.

Lemma strip_keeps_no_pair t :
  String.prefix "``" t = false ->
  String.prefix "``" (stripFences_from 0 t) = false.
Proof.
  destruct t as [|d r]; [reflexivity|]. rewrite prefix2. intros H.
  assert (H3 : String.prefix "```" (String d r) = false).
  { rewrite prefix3. destruct (Ascii.eqb "`"%char d); [|reflexivity].
    cbn [andb] in *. destruct r as [|e r]; [reflexivity|].
    rewrite prefix2. cbn [startsTick] in H. now rewrite H. }
  rewrite (no_fence_kept d r H3), prefix2.
  destruct (Ascii.eqb "`"%char d); [|reflexivity]. cbn [andb] in *.
  now apply strip_keeps_no_tick.
Qed.

Lemma strip_no_fence s : forall skip, hasFence (stripFences_from skip s) = false.
Proof.
  induction s as [|c r IH]; intros skip; [reflexivity|].
  destruct skip as [|k]; [|apply IH].
  destruct (String.prefix "```" (String c r)) eqn:H3.
  - cbn [stripFences_from].
    destruct (String.prefix "```json" (String c r)); [apply IH|].
    rewrite H3. apply IH.
  - rewrite (no_fence_kept c r H3). cbn [hasFence].
    rewrite IH, orb_false_r, prefix3.
    rewrite prefix3 in H3.
    destruct (Ascii.eqb "`"%char c); [|reflexivity]. cbn [andb] in *.
    now apply strip_keeps_no_pair.
Qed.

(** X13. After [replace(/```json|```/g, '')] no code fence marker is
    left anywhere in the text: dropping a marker never brings the
    backticks around it together into a new one. *)
Theorem stripFences_leaves_no_fence (s : string) :
  hasFence (stripFences s) = false.
Proof. apply strip_no_fence. Qed.

Lemma strip_plain_app (s tail : string) :
  has_backtick s = false ->
  stripFences_from 0 (s ++ tail) = s ++ stripFences_from 0 tail.
Proof.
  induction s as [|c r IH]; [reflexivity|]. unfold has_backtick, backtick.
  cbn [list_ascii_of_string existsb].
  intros H. apply orb_false_iff in H as [Hc Hr].
  change (String c r ++ tail) with (String c (r ++ tail)).
  rewrite no_fence_kept.
  - simpl. f_equal. now apply IH.
  - rewrite prefix3. rewrite Ascii.eqb_sym in Hc. now rewrite Hc.
Qed.

(** X14. A text without a backtick goes through the fence removal
    unchanged. *)
Theorem stripFences_plain (s : string) :
  has_backtick s = false -> stripFences s = s.
Proof.
  intros H. unfold stripFences.
  rewrite <- (append_empty_r s) at 1.
  rewrite (strip_plain_app s "" H). simpl. apply append_empty_r.
Qed.

Lemma stripFences_plain_witness :
  stripFences "{ moderationStatus: 1 }" = "{ moderationStatus: 1 }".
Proof. exact (stripFences_plain "{ moderationStatus: 1 }" eq_refl). Defined.

Lemma rev_string_acc s : forall acc, rev_string acc s = rev_string "" s ++ acc.
Proof.
  induction s as [|c r IH]; intros acc; [reflexivity|]. simpl.
  rewrite (IH (String c acc)), (IH (String c "")).
  now rewrite append_assoc.
Qed.

Lemma rev_string_app a : forall acc b,
  rev_string acc (a ++ b) = rev_string (rev_string acc a) b.
Proof.
  induction a as [|c r IH]; intros acc b; [reflexivity|]. simpl. apply IH.
Qed.

Lemma rev_string_involutive s : rev_string "" (rev_string "" s) = s.
Proof.
  induction s as [|c r IH]; [reflexivity|]. simpl.
  rewrite (rev_string_acc r (String c "")), rev_string_app, IH.
  reflexivity.
Qed.

(** X15. A JSON object the endpoint wrapped in a fence is unwrapped
    exactly: for an object text without backticks, the text handed to
    [JSON.parse] for the fenced reply is the object text itself. *)
Theorem fenced_object_is_unwrapped (inner : string) :
  has_backtick inner = false ->
  trim (stripFences ("```json" ++ newline ++ "{" ++ inner ++ "}" ++ newline ++ "```"))
  = "{" ++ inner ++ "}".
Proof.
  intros H.
  assert (Hs : stripFences ("```json" ++ newline ++ "{" ++ inner ++ "}" ++ newline ++ "```")
               = newline ++ "{" ++ inner ++ "}" ++ newline).
  { unfold stripFences, newline. cbn -[stripFences_from].
    cbn [stripFences_from String.prefix]. cbn.
    f_equal. f_equal. rewrite (strip_plain_app inner _ H). reflexivity. }
  rewrite Hs. unfold trim, newline. cbn [append].
  cbn [dropLeading]. cbn [leading find whiteSpace]. cbn.
  rewrite rev_string_app. cbn.
  rewrite (rev_string_acc (rev_string "{" inner) "}").
  rewrite (rev_string_acc inner "{"), rev_string_app.
  rewrite rev_string_involutive. reflexivity.
Qed.

Lemma fenced_object_is_unwrapped_witness :
  trim (stripFences ("```json" ++ newline ++ "{" ++ " a: 1 " ++ "}" ++ newline ++ "```"))
  = "{ a: 1 }".
Proof. exact (fenced_object_is_unwrapped " a: 1 " eq_refl). Defined.

End TextFacts.

(* ------------------------------------------------------------------ *)
(** ** Properties of the encoding *)

Module EncodingFacts.
Import JS Encoding.





Lemma Math_min_one y :
  let t := Math_min 1 y in
  is_nan t = true \/ PrimFloat.leb t 1 = true.
Proof.
  unfold Math_min.
  destruct (is_nan 1 || is_nan y); [now left|].
  destruct (PrimFloat.leb y 1) eqn:Hy.
  - destruct (PrimFloat.leb 1 y); right; exact Hy.
  - now right.
Qed.

Lemma handle_time v x e t :
  (currentTime x = None \/ currentTime x = Some t) ->
  t = Math_min 1 (duration v * 0.1)%float ->
  currentTime (handle v x e) = None \/ currentTime (handle v x e) = Some t.
Proof.
  intros H ->. destruct e; simpl.
  - now right.
  - unfold onSeeked.
    destruct (has2dContext v); simpl; [destruct (toDataURL v)|]; exact H.
  - exact H.
Qed.

Lemma handle_canvas v x e :
  (forall w h, canvasSize x = Some (w, h) -> (0 < w /\ 0 < h)%nat) ->
  forall w h, canvasSize (handle v x e) = Some (w, h) -> (0 < w /\ 0 < h)%nat.
Proof.
  intros H w h. destruct e; simpl; try apply H.
  assert (Hd : forall n d, (0 < d -> 0 < or_default n d)%nat)
    by (intros [|n] d Hd; simpl; lia).
  unfold onSeeked.
  destruct (has2dContext v); simpl; [destruct (toDataURL v)|]; simpl;
    intros [= <- <-]; split; apply Hd; lia.
Qed.

(** X17. Whatever events the video fires, [extractVideoFrame] never
    sends it beyond the first second: the position it seeks to is
    [Math.min(1, duration * 0.1)], which is at most 1, or NaN when the
    duration is. The canvas it draws on never has a zero side. *)
Theorem frame_within_first_second (v : Video) (events : list VideoEvent) :
  let x := extractVideoFrame v events in
  (forall t, currentTime x = Some t ->
             t = Math_min 1 (duration v * 0.1)%float /\
             (is_nan t = true \/ PrimFloat.leb t 1 = true)) /\
  (forall w h, canvasSize x = Some (w, h) -> (0 < w /\ 0 < h)%nat).
Proof.
  unfold extractVideoFrame.
  assert (H : forall x,
             (currentTime x = None \/
              currentTime x = Some (Math_min 1 (duration v * 0.1)%float)) ->
             (forall w h, canvasSize x = Some (w, h) -> (0 < w /\ 0 < h)%nat) ->
             let y := fold_left (handle v) events x in
             (currentTime y = None \/
              currentTime y = Some (Math_min 1 (duration v * 0.1)%float)) /\
             (forall w h, canvasSize y = Some (w, h) -> (0 < w /\ 0 < h)%nat)).
  { induction events as [|e events IH]; intros x Ht Hc; [now split|].
    simpl. apply IH.
    - now apply handle_time.
    - now apply handle_canvas. }
  destruct (H started (or_introl eq_refl)) as [Ht Hc]; [discriminate|].
  cbv zeta. split; [|exact Hc].
  intros t Et. destruct Ht as [Ht|Ht]; rewrite Ht in Et; [discriminate|].
  injection Et as <-. split; [reflexivity|apply Math_min_one].
Qed.

Lemma frame_within_first_second_witness :
  let t := Math_min 1 (8 * 0.1)%float in
  is_nan t = true \/ PrimFloat.leb t 1 = true.
Proof.
  exact (proj2 (proj1 (frame_within_first_second
                         {| duration := 8; videoWidth := 1080; videoHeight := 1920;
                            has2dContext := true;
                            toDataURL := Ok "data:image/jpeg;base64,AA" |}
                         [loadeddata; seeked])
                  (Math_min 1 (8 * 0.1)%float) eq_refl)).
Defined.








End EncodingFacts.

(* ------------------------------------------------------------------ *)
(** ** Further properties of the analysis panel *)

Module PanelMore.
Import JS Moderation Modal Panel Properties Invariants Screen.
Import ModerationFacts PanelFacts.

Lemma existsb_filter_key (p : string -> bool) (k : string) (l : list string) :
  In k l -> existsb (String.eqb k) (filter p l) = p k.
Proof.
  induction l as [|x l IH]; [intros []|]. intros Hin. simpl.
  destruct (String.eqb_spec k x) as [<-|Hne].
  - destruct (p k) eqn:E; simpl.
    + now rewrite String.eqb_refl.
    + destruct (in_dec string_dec k l) as [Hk|Hk]; [now rewrite IH|].
      clear IH Hin. induction l as [|y l IHl]; [reflexivity|]. simpl.
      destruct (p y) eqn:Ey; simpl.
      * destruct (String.eqb_spec k y) as [->|_]; [congruence|].
        apply IHl. intros H. apply Hk. now right.
      * apply IHl. intros H. apply Hk. now right.
  - destruct Hin as [->|Hin]; [now elim Hne|].
    destruct (p x); simpl; [|now apply IH].
    apply String.eqb_neq in Hne. rewrite Hne. now apply IH.
Qed.

Lemma approvedPanel_on_shape (m : UploadedMedia) (a : AiAnalysis) :
  Modal.status m = approved ->
  aiAnalysis m = Some a ->
  wellTyped a = true ->
  exists chips pct checks,
    AIAnalysisPanel m
    = Returns (ContentApproved (nth_error (contentType a) 0) chips pct checks) /\
    tags a = Arr chips /\
    map (fun r => (key r, label r)) checks = FLAG_LABELS /\
    (forall r, In r checks ->
       marker r = if existsb (String.eqb (key r))
                       (flaggedKeys (flaggedCategories a))
                  then "Flagged" else "Clear").
Proof.
  intros Hst Ha Hwt.
  destruct (wellTyped_shape a Hwt) as [props [reasons [chips [c [Hf [_ [Ht Hc]]]]]]].
  unfold AIAnalysisPanel, approvedPanel, confidencePct_of.
  rewrite Hst, Ha, Hc, Ht, Hf, moderationChecks_of_object.
  cbv beta iota delta [ToNumber tagList and_then of_result].
  do 3 eexists. split; [reflexivity|]. split; [reflexivity|]. split.
  - rewrite map_map. simpl. reflexivity.
  - intros r Hin. apply in_map_iff in Hin as [[k l] [<- Hkl]]. simpl.
    change (flaggedKeys (Obj props))
      with (filter (fun k => truthy_opt (lookup k props)) (map fst FLAG_LABELS)).
    rewrite (existsb_filter_key (fun k => truthy_opt (lookup k props)) k
               (map fst FLAG_LABELS)); [reflexivity|].
    change k with (fst (k, l)). now apply in_map.
Qed.

(** X19. For an approved record whose analysis has the declared shape,
    the panel shows the first content type, one chip per tag, and the
    moderation checks: one row for each of the six categories, in the
    order of [FLAG_LABELS] and under its label, marked [Flagged] when
    the category is set in the analysis and [Clear] when it is not. *)
Theorem approved_panel_checks (m : UploadedMedia) (a : AiAnalysis) :
  Modal.status m = approved ->
  aiAnalysis m = Some a ->
  wellTyped a = true ->
  exists chips pct checks,
    AIAnalysisPanel m
    = Returns (ContentApproved (nth_error (contentType a) 0) chips pct checks) /\
    tags a = Arr chips /\
    map (fun r => (key r, label r)) checks = FLAG_LABELS /\
    (forall r, In r checks ->
       marker r = if existsb (String.eqb (key r))
                       (flaggedKeys (flaggedCategories a))
                  then "Flagged" else "Clear").
Proof. apply approvedPanel_on_shape. Qed.

Lemma approved_panel_checks_witness :
  exists chips pct checks,
    AIAnalysisPanel Samples.approvedRecord
    = Returns (ContentApproved (Some (Str "Hair Colouring")) chips pct checks) /\
    map (fun r => (key r, label r)) checks = FLAG_LABELS.
Proof.
  destruct (approved_panel_checks Samples.approvedRecord Samples.safeAnalysis
              eq_refl eq_refl eq_refl)
    as [chips [pct [checks [Hp [_ [Hk _]]]]]].
  exists chips, pct, checks. split; [exact Hp|exact Hk].
Defined.

Lemma rejectedPanel_on_shape (m : UploadedMedia) (a : AiAnalysis)
    (reasons : list value) :
  Modal.status m = rejected ->
  aiAnalysis m = Some a ->
  wellTyped a = true ->
  moderationReasons a = Arr reasons ->
  exists flagged,
    AIAnalysisPanel m
    = Returns (ContentNotApproved
                 (match reasons with [] => None | _ => Some reasons end)
                 flagged remediationText) /\
    match flagged with
    | None => flaggedKeys (flaggedCategories a) = []
    | Some rs =>
        rs <> [] /\
        map key rs = flaggedKeys (flaggedCategories a) /\
        (forall r, In r rs ->
           marker r = "Flagged" /\ In (key r, label r) FLAG_LABELS)
    end.
Proof.
  intros Hst Ha Hwt Hr.
  destruct (wellTyped_shape a Hwt) as [props [_ [_ [_ [Hf _]]]]].
  unfold AIAnalysisPanel, rejectedPanel, triggeredFlags.
  rewrite Hst, Ha, Hf, Hr, triggeredFlags_of_object.
  set (triggered := filter (fun kl => truthy_opt (lookup (fst kl) props))
                      FLAG_LABELS).
  assert (Hkeys : map fst triggered = flaggedKeys (Obj props))
    by exact (map_fst_filter (fun k => truthy_opt (lookup k props)) FLAG_LABELS).
  cbv beta iota delta [and_then of_result reasonsList].
  eexists. split.
  - f_equal. f_equal. now destruct reasons.
  - destruct triggered as [|kl rest] eqn:E; cbn [List.length Nat.ltb Nat.leb].
    + now rewrite <- Hkeys.
    + split; [discriminate|]. split.
      * rewrite map_map. exact Hkeys.
      * intros r Hin. apply in_map_iff in Hin as [[k l] [<- Hin]].
        split; [reflexivity|]. simpl.
        assert (Hin' : In (k, l) triggered) by (rewrite E; exact Hin).
        unfold triggered in Hin'. now apply filter_In in Hin' as [Hin' _].
Qed.

(** X20. For a rejected record whose analysis has the declared shape,
    whatever the number of categories set: the panel always ends with
    the remediation text; the list of reasons is shown exactly when
    there is a reason, the flagged list exactly when a category is set,
    and that list then has one [Flagged] row per category set, in the
    order of [FLAG_LABELS]. *)
Theorem rejected_panel_sections (m : UploadedMedia) (a : AiAnalysis)
    (reasons : list value) :
  Modal.status m = rejected ->
  aiAnalysis m = Some a ->
  wellTyped a = true ->
  moderationReasons a = Arr reasons ->
  exists flagged,
    AIAnalysisPanel m
    = Returns (ContentNotApproved
                 (match reasons with [] => None | _ => Some reasons end)
                 flagged remediationText) /\
    match flagged with
    | None => flaggedKeys (flaggedCategories a) = []
    | Some rs =>
        rs <> [] /\
        map key rs = flaggedKeys (flaggedCategories a) /\
        (forall r, In r rs ->
           marker r = "Flagged" /\ In (key r, label r) FLAG_LABELS)
    end.
Proof. apply rejectedPanel_on_shape. Qed.

Lemma rejected_panel_sections_witness :
  exists flagged,
    AIAnalysisPanel Samples.rejectedRecord
    = Returns (ContentNotApproved (Some [Str "The image shows nudity."])
                 flagged remediationText).
Proof.
  destruct (rejected_panel_sections Samples.rejectedRecord Samples.unsafeAnalysis
              [Str "The image shows nudity."] eq_refl eq_refl eq_refl eq_refl)
    as [flagged [Hp _]].
  exists flagged. exact Hp.
Defined.

Lemma panel_on_shape (m : UploadedMedia) :
  (forall a, aiAnalysis m = Some a -> wellTyped a = true) ->
  exists v, AIAnalysisPanel m = Returns v.
Proof.
  intros H. destruct (Modal.status m) eqn:Hst.
  - unfold AIAnalysisPanel. rewrite Hst. eauto.
  - destruct (aiAnalysis m) as [a|] eqn:Ha.
    + destruct (approvedPanel_on_shape m a Hst Ha (H a eq_refl))
        as [chips [pct [checks [Hp _]]]]. eauto.
    + unfold AIAnalysisPanel. rewrite Hst, Ha. eauto.
  - destruct (aiAnalysis m) as [a|] eqn:Ha.
    + pose proof (H a eq_refl) as Hwt.
      destruct (wellTyped_shape a Hwt) as [_ [reasons [_ [_ [_ [Hr _]]]]]].
      destruct (rejectedPanel_on_shape m a reasons Hst Ha Hwt Hr)
        as [flagged [Hp _]]. eauto.
    + unfold AIAnalysisPanel. rewrite Hst, Ha. eauto.
  - unfold AIAnalysisPanel. rewrite Hst. eauto.
Qed.

(** X21. The panel returns an element tree, without throwing, for every
    record whose analysis, if it has one, has the declared shape. *)
Theorem panel_returns_on_declared_shape (m : UploadedMedia) :
  (forall a, aiAnalysis m = Some a -> wellTyped a = true) ->
  exists v, AIAnalysisPanel m = Returns v.
Proof. apply panel_on_shape. Qed.

Lemma panel_returns_on_declared_shape_witness :
  exists v, AIAnalysisPanel Samples.rejectedRecord = Returns v.
Proof.
  apply (panel_returns_on_declared_shape Samples.rejectedRecord).
  intros a [= <-]. reflexivity.
Defined.

(** X22. A verdict whose [moderationStatus] is [safe] or [unsafe] and
    that leaves out every optional field, or gives [null] for it, is
    stored as an analysis of the shape [interface UploadedMedia]
    declares, every field included: the defaults are well typed. The
    panel of a record holding that analysis returns without throwing. *)
Theorem bare_verdict_renders (parsed : value) :
  parsed <> Null ->
  field parsed "moderationStatus" = Some (Str "safe") \/
  field parsed "moderationStatus" = Some (Str "unsafe") ->
  (forall k, In k optionalFields ->
             omitted parsed k \/ present parsed k Null) ->
  exists a, verdict parsed = Ok a /\ declaredShape a = true /\
    forall m, aiAnalysis m = Some a -> exists v, AIAnalysisPanel m = Returns v.
Proof.
  intros Hn Hst Hopt. rewrite (verdict_of_value parsed Hn).
  eexists. split; [reflexivity|].
  assert (Hd : forall k d, In k optionalFields ->
                           coalesce (field parsed k) d = d).
  { intros k d Hk. apply coalesce_default. exact (Hopt k Hk). }
  match goal with
  | |- declaredShape ?a = true /\ _ => assert (Hwt : wellTyped a = true)
  end.
  { unfold wellTyped. cbn [contentType tags moderationReasons confidence
                             flaggedCategories].
    rewrite !Hd by (simpl; tauto). reflexivity. }
  split.
  - unfold declaredShape. rewrite Hwt. cbn [moderationStatus andb].
    now destruct Hst as [-> | ->].
  - intros m Ha. apply panel_on_shape.
    intros a' Ha'. rewrite Ha in Ha'. now injection Ha' as <-.
Qed.

Lemma bare_verdict_renders_witness :
  exists a, verdict Samples.bareSafe = Ok a /\ declaredShape a = true.
Proof.
  destruct (bare_verdict_renders Samples.bareSafe ltac:(discriminate)
              (or_introl eq_refl))
    as [a [Hv [Hwt _]]].
  - intros k Hk. left. simpl in Hk.
    repeat (destruct Hk as [<-|Hk]; [reflexivity|]). now destruct Hk.
  - exists a. split; [exact Hv|exact Hwt].
Defined.

(** X23. When the call of a record throws, the record shows the failure
    panel with the message of the thrown value, or the fixed fallback
    text when the thrown value has no message; its preview carries no
    overlay. *)
Theorem failure_is_shown (newId : string) (e : exn) (s : State)
    (m : UploadedMedia) :
  In m (uploadedMedia s) ->
  id m = newId ->
  exists m',
    In m' (uploadedMedia (analysisSettled newId (Throw e) s)) /\
    id m' = newId /\
    AIAnalysisPanel m'
    = Returns (AnalysisFailed (match message e with
                               | Some text => text
                               | None => unexpectedErrorText
                               end)) /\
    overlay (CompactMediaPreview m') = None.
Proof.
  intros Hm Hid. exists (withError e m).
  split; [now apply settled_with_error|]. now repeat split.
Qed.

Lemma failure_is_shown_witness :
  exists m',
    In m' (uploadedMedia
             (analysisSettled "k3x9q" (Throw (Thrown None))
                (handleFileSelect (Some [Samples.photo]) "k3x9q" initial))) /\
    AIAnalysisPanel m' = Returns (AnalysisFailed unexpectedErrorText).
Proof.
  destruct (failure_is_shown "k3x9q" (Thrown None)
              (handleFileSelect (Some [Samples.photo]) "k3x9q" initial)
              (newMedia "k3x9q" Samples.photo 0) (or_introl eq_refl) eq_refl)
    as [m' [Hin [_ [Hp _]]]].
  exists m'. split; [exact Hin|exact Hp].
Defined.

End PanelMore.
